(** * phox: rectangular-mesh rendering (gdssim/simrmphotonicmodule.py)

    A shallow embedding of the field-propagation side of
    [SimRMPhotonicModule] and of the module-level helpers
    [_mzi_poly_idx_to_layer_num] and [_get_rectangular_mesh_points], followed
    by the properties of the mesh topology indexer, of the polygon-index
    mapper, of the frame renderer and of the animation driver.

    Python integers are [Z]; [//] and [%] by a positive constant are [Z.div]
    and [Z.modulo] (both floor).  numpy arrays carry their shape and an item
    function on the indices inside the shape.  Exceptions are the [Raise]
    branch of [result]. *)

From stdpp Require Import base numbers list list_numbers sorting strings gmap.

Local Open Scope Z_scope.

(** ** Exceptions and the error monad *)

Inductive exn :=
| ValueError      (* numpy: negative dimensions, hstack shape mismatch *)
| IndexError      (* numpy: index out of bounds for an axis *)
| TypeError       (* 'NoneType' object is not subscriptable *)
| AttributeError  (* attribute read before any method has set it *)
| Exception_.     (* the bare [Exception] of animate_field_propagation *)

Inductive result (A : Type) :=
| Ok (a : A)
| Raise (e : exn).
Arguments Ok {A} a.
Arguments Raise {A} e.

#[global] Instance result_ret : MRet result := fun A a => Ok a.
#[global] Instance result_bind : MBind result := fun A B f m =>
  match m with
  | Ok a => f a
  | Raise e => Raise e
  end.
#[global] Instance result_fmap : FMap result := fun A B f m =>
  match m with
  | Ok a => Ok (f a)
  | Raise e => Raise e
  end.
#[global] Instance result_throw : MThrow exn result := fun A e => Raise e.

#[global] Instance exn_eq_dec : EqDecision exn.
Proof. solve_decision. Defined.

(** [for x in xs: acc = body(acc, x)] with exceptions leaving the loop. *)
Fixpoint for_each {S A : Type} (body : S -> A -> result S) (xs : list A) (s : S)
  : result S :=
  match xs with
  | [] => Ok s
  | x :: xs' => s' ← body s x; for_each body xs' s'
  end.

(** The values a comprehension-like loop computes, in order. *)
Fixpoint map_result {A B : Type} (f : A -> result B) (xs : list A)
  : result (list B) :=
  match xs with
  | [] => Ok []
  | x :: xs' => y ← f x; ys ← map_result f xs'; Ok (y :: ys)
  end.

(** [range(n)] *)
Definition range (n : Z) : list Z := seqZ 0 n.

(** [enumerate(xs)] *)
Definition enumerate {A : Type} (xs : list A) : list (Z * A) :=
  zip (range (Z.of_nat (length xs))) xs.

(** ** numpy arrays *)

Module np.

(** A one-dimensional array. *)
Record ndarray1 (A : Type) := mk1 {
  len1 : Z;
  item1 : Z -> A
}.
Arguments mk1 {A}.
Arguments len1 {A}.
Arguments item1 {A}.

(** A two-dimensional array: [shape = (shape0, shape1)]. *)
Record ndarray2 (A : Type) := mk2 {
  shape0 : Z;
  shape1 : Z;
  item2 : Z -> Z -> A
}.
Arguments mk2 {A}.
Arguments shape0 {A}.
Arguments shape1 {A}.
Arguments item2 {A}.

(** A three-dimensional array. *)
Record ndarray3 (A : Type) := mk3 {
  dim0 : Z;
  dim1 : Z;
  dim2 : Z;
  item3 : Z -> Z -> Z -> A
}.
Arguments mk3 {A}.
Arguments dim0 {A}.
Arguments dim1 {A}.
Arguments dim2 {A}.
Arguments item3 {A}.

(** An integer index [i] on an axis of size [n]: negative indices count
    from the end, anything outside [-n, n) is an [IndexError]. *)
Definition axis_index (n i : Z) : result Z :=
  if (0 <=? i) && (i <? n) then Ok i
  else if (- n <=? i) && (i <? 0) then Ok (n + i)
  else Raise IndexError.

(** [a[i]] *)
Definition getitem1 {A} (a : ndarray1 A) (i : Z) : result A :=
  i' ← axis_index (len1 a) i; Ok (item1 a i').

(** [a[i, j]] *)
Definition getitem2 {A} (a : ndarray2 A) (i j : Z) : result A :=
  i' ← axis_index (shape0 a) i;
  j' ← axis_index (shape1 a) j;
  Ok (item2 a i' j').

(** [np.zeros((r, c))]: "negative dimensions are not allowed". *)
Definition zeros {A} (zero : A) (r c : Z) : result (ndarray2 A) :=
  if (r <? 0) || (c <? 0) then Raise ValueError
  else Ok (mk2 r c (fun _ _ => zero)).

(** Membership of index [i] in the slice [start::step] (step > 0). *)
Definition in_slice (start step i : Z) : bool :=
  (start <=? i) && ((i - start) mod step =? 0).

(** [a[s0::k0, s1::k1] = v], broadcasting the scalar [v]. *)
Definition setitem_slices {A} (a : ndarray2 A) (s0 k0 s1 k1 : Z) (v : A)
  : ndarray2 A :=
  mk2 (shape0 a) (shape1 a)
      (fun i j => if in_slice s0 k0 i && in_slice s1 k1 j then v
                  else item2 a i j).

(** [np.where(a == v)]: the row indices and the column indices of the
    matching cells, both in row-major (C) order. *)
Definition where_eq (a : ndarray2 Z) (v : Z) : list Z * list Z :=
  let cells :=
    i ← range (shape0 a);
    j ← range (shape1 a);
    if item2 a i j =? v then [(i, j)] else [] in
  (cells.*1, cells.*2).

(** [a.T] *)
Definition transpose {A} (a : ndarray2 A) : ndarray2 A :=
  mk2 (shape1 a) (shape0 a) (fun i j => item2 a j i).

(** [np.hstack([a, b])] on two-dimensional arrays: the row counts must
    agree. *)
Definition hstack {A} (a b : ndarray2 A) : result (ndarray2 A) :=
  if shape0 a =? shape0 b then
    Ok (mk2 (shape0 a) (shape1 a + shape1 b)
            (fun i j => if j <? shape1 a then item2 a i j
                        else item2 b i (j - shape1 a)))
  else Raise ValueError.

(** The stop of the slice [:stop] on an axis of size [n], as Python
    clips it. *)
Definition slice_stop (n stop : Z) : Z :=
  if stop <? 0 then Z.max 0 (n + stop) else Z.min stop n.

(** [a[:stop, :, k]] *)
Definition take_layers {A} (a : ndarray3 A) (stop k : Z)
  : result (ndarray2 A) :=
  k' ← axis_index (dim2 a) k;
  Ok (mk2 (slice_stop (dim0 a) stop) (dim1 a) (fun i j => item3 a i j k')).

End np.

(** ** Mesh topology indexer *)

(** [_get_rectangular_mesh_points(dim, num_layers)] *)
Definition _get_rectangular_mesh_points (dim num_layers : Z)
  : result (list Z * list Z) :=
  checkerboard ← np.zeros 0 (dim - 1) num_layers;
  let checkerboard := np.setitem_slices checkerboard 0 2 0 2 1 in
  let checkerboard := np.setitem_slices checkerboard 1 2 1 2 1 in
  Ok (np.where_eq checkerboard 1).

(** [np.asarray(_get_rectangular_mesh_points(num_ports, depth)).T]: the
    rows of the transposed 2 x N index array are the (port, layer) pairs. *)
Definition valid_mesh_points_of (num_ports depth : Z) : result (list (Z * Z)) :=
  '(ps, ls) ← _get_rectangular_mesh_points num_ports depth;
  Ok (zip ps ls).

(** The checkerboard rule in the words of the specification: [p] and [l]
    are both even or both odd. *)
Definition same_parity (p l : Z) : bool :=
  (Z.even p && Z.even l) || (Z.odd p && Z.odd l).

(** The cells of the [(num_ports - 1) x depth] grid, port by port and,
    within a port, layer by layer. *)
Definition grid_cells (num_ports depth : Z) : list (Z * Z) :=
  p ← range (num_ports - 1); l ← range depth; [(p, l)].

(** The positions of the specification: the same-parity cells in
    row-major port-then-layer order. *)
Definition validPositions_spec (num_ports depth : Z) : list (Z * Z) :=
  filter (fun c => same_parity c.1 c.2 = true) (grid_cells num_ports depth).

(** Row-major order on cells. *)
Definition cell_lt (a b : Z * Z) : Prop :=
  a.1 < b.1 \/ (a.1 = b.1 /\ a.2 < b.2).

(** ** Polygon index to sub-layer *)

(** [_mzi_poly_idx_to_layer_num(poly_idx)] *)
Definition _mzi_poly_idx_to_layer_num (poly_idx : Z) : Z :=
  if poly_idx =? 0 then 0
  else
    let layer_num_start := (poly_idx - 4) / 10 * 4 + 1 in
    let poly_idx_offset := (poly_idx - 4) mod 10 in
    if poly_idx_offset <=? 2 then layer_num_start
    else if poly_idx_offset <=? 3 then layer_num_start + 1
    else if poly_idx_offset <=? 6 then layer_num_start + 2
    else layer_num_start + 3.

(** The banding in the words of the specification: nothing for offsets up
    to 2, one more at offset 3, two more in [4,6], three more in [7,9]. *)
Definition band_of_offset (offset : Z) : Z :=
  (if offset =? 3 then 1 else 0)
  + (if (4 <=? offset) && (offset <=? 6) then 2 else 0)
  + (if (7 <=? offset) && (offset <=? 9) then 3 else 0).

Definition subLayerOf_spec (index : Z) : Z :=
  4 * ((index - 4) / 10) + 1 + band_of_offset ((index - 4) mod 10).

(** ** External collaborators

    Floats, the colour constants and angle bounds of
    [phoxy.components.utils], the ['hot'] colour map of matplotlib and the
    polygons of the geometry generator are supplied from outside. *)

Class Collaborators := {
  real : Type;                      (* Python / numpy floats *)
  complex : Type;                   (* numpy complex scalars *)
  rgb : Type;                       (* a colour triple *)
  polygon : Type;                   (* one polygon point list of a path *)
  GAMMA_COLOR : rgb;
  THETA_COLOR : rgb;
  PHI_COLOR : rgb;
  MAX_THETA : real;
  MAX_PHI : real;
  truediv : real -> real -> real;   (* [x / y] *)
  np_abs : complex -> real;         (* [np.abs] *)
  complex_zero : complex;           (* an entry of [np.zeros] in a complex array *)
  hot_to_rgba : real -> rgb * real  (* [ScalarMappable(cmap='hot')], clim (0, 1) *)
}.

Section Renderer.

Context `{Collaborators}.

(** [( *COLOR, alpha)] and the tuples [to_rgba] returns. *)
Definition rgba : Type := rgb * real.

(** The [PolygonPatch] objects, by the data their geometry is built from
    (the coordinates themselves are floating-point arithmetic over the
    dimensions of the external MZI geometry). *)
Inductive patch :=
| gamma_phase_shift_patch (idx : Z)
| theta_phase_shift_patch (point : Z * Z)
| phi_phase_shift_patch (point : Z * Z)
| waveguide_field_patch (polygon_point_list : polygon).

(** The calls received by the matplotlib axes. *)
Inductive ax_call :=
| ax_configure                                  (* facecolor, ticks, xlim, ylim *)
| ax_text_gamma (n : Z) (fontsize : real)       (* [$\gamma_{n}$] *)
| ax_text_theta (n m : Z) (fontsize : real)     (* [$\theta_{nm}$] *)
| ax_text_phi (n m : Z) (fontsize : real)       (* [$\phi_{nm}$] *)
| ax_add_collection.

Definition axes : Type := list ax_call.

(** The attributes of [self] that the field-propagation methods read or
    write.  [num_ports] and [fill_pattern] are set by the superclass
    [RMPhotonicModule]; an attribute that no method has set yet is [None]. *)
Record SimRMPhotonicModule := {
  num_ports : Z;
  fill_pattern : list (list polygon);
  valid_mesh_points : list (Z * Z);
  plotted_simulated_fields : bool;
  simulation_patches : list patch;
  simulation_patches_rgba : list rgba;
  num_poly_layers : option Z;
  light_amplitude_mappable : option unit;
  simulation_patch_collection : option (list patch * list rgba)
}.

(** [__init__], with the geometry the superclass produces. *)
Definition __init__ (num_ports_ : Z) (depth : option Z)
    (fill_pattern_ : list (list polygon)) : result SimRMPhotonicModule :=
  let depth := default num_ports_ depth in
  points ← valid_mesh_points_of num_ports_ depth;
  Ok {| num_ports := num_ports_;
        fill_pattern := fill_pattern_;
        valid_mesh_points := points;
        plotted_simulated_fields := false;
        simulation_patches := [];
        simulation_patches_rgba := [];
        num_poly_layers := None;
        light_amplitude_mappable := None;
        simulation_patch_collection := None |}.

Definition append_patch (self : SimRMPhotonicModule) (p : patch) :=
  {| num_ports := num_ports self;
     fill_pattern := fill_pattern self;
     valid_mesh_points := valid_mesh_points self;
     plotted_simulated_fields := plotted_simulated_fields self;
     simulation_patches := simulation_patches self ++ [p];
     simulation_patches_rgba := simulation_patches_rgba self;
     num_poly_layers := num_poly_layers self;
     light_amplitude_mappable := light_amplitude_mappable self;
     simulation_patch_collection := simulation_patch_collection self |}.

Definition append_rgba (self : SimRMPhotonicModule) (c : rgba) :=
  {| num_ports := num_ports self;
     fill_pattern := fill_pattern self;
     valid_mesh_points := valid_mesh_points self;
     plotted_simulated_fields := plotted_simulated_fields self;
     simulation_patches := simulation_patches self;
     simulation_patches_rgba := simulation_patches_rgba self ++ [c];
     num_poly_layers := num_poly_layers self;
     light_amplitude_mappable := light_amplitude_mappable self;
     simulation_patch_collection := simulation_patch_collection self |}.

Definition set_rgba (self : SimRMPhotonicModule) (cs : list rgba) :=
  {| num_ports := num_ports self;
     fill_pattern := fill_pattern self;
     valid_mesh_points := valid_mesh_points self;
     plotted_simulated_fields := plotted_simulated_fields self;
     simulation_patches := simulation_patches self;
     simulation_patches_rgba := cs;
     num_poly_layers := num_poly_layers self;
     light_amplitude_mappable := light_amplitude_mappable self;
     simulation_patch_collection := simulation_patch_collection self |}.

Definition set_num_poly_layers (self : SimRMPhotonicModule) (n : Z) :=
  {| num_ports := num_ports self;
     fill_pattern := fill_pattern self;
     valid_mesh_points := valid_mesh_points self;
     plotted_simulated_fields := plotted_simulated_fields self;
     simulation_patches := simulation_patches self;
     simulation_patches_rgba := simulation_patches_rgba self;
     num_poly_layers := Some n;
     light_amplitude_mappable := light_amplitude_mappable self;
     simulation_patch_collection := simulation_patch_collection self |}.

Definition set_mappable (self : SimRMPhotonicModule) :=
  {| num_ports := num_ports self;
     fill_pattern := fill_pattern self;
     valid_mesh_points := valid_mesh_points self;
     plotted_simulated_fields := plotted_simulated_fields self;
     simulation_patches := simulation_patches self;
     simulation_patches_rgba := simulation_patches_rgba self;
     num_poly_layers := num_poly_layers self;
     light_amplitude_mappable := Some ();
     simulation_patch_collection := simulation_patch_collection self |}.

Definition set_collection (self : SimRMPhotonicModule)
    (c : list patch * list rgba) :=
  {| num_ports := num_ports self;
     fill_pattern := fill_pattern self;
     valid_mesh_points := valid_mesh_points self;
     plotted_simulated_fields := plotted_simulated_fields self;
     simulation_patches := simulation_patches self;
     simulation_patches_rgba := simulation_patches_rgba self;
     num_poly_layers := num_poly_layers self;
     light_amplitude_mappable := light_amplitude_mappable self;
     simulation_patch_collection := Some c |}.

Definition set_plotted (self : SimRMPhotonicModule) :=
  {| num_ports := num_ports self;
     fill_pattern := fill_pattern self;
     valid_mesh_points := valid_mesh_points self;
     plotted_simulated_fields := true;
     simulation_patches := simulation_patches self;
     simulation_patches_rgba := simulation_patches_rgba self;
     num_poly_layers := num_poly_layers self;
     light_amplitude_mappable := light_amplitude_mappable self;
     simulation_patch_collection := simulation_patch_collection self |}.

(** [ax.text(...)] under [if label_size is not None]. *)
Definition text_if (label_size : option real) (ax : axes)
    (label : real -> ax_call) : axes :=
  match label_size with
  | Some fontsize => ax ++ [label fontsize]
  | None => ax
  end.

(** [a[i]] and [a[i, j]] on an optional array: subscripting [None] is a
    [TypeError]. *)
Definition subscript1 {A} (a : option (np.ndarray1 A)) (i : Z) : result A :=
  match a with
  | Some a => np.getitem1 a i
  | None => Raise TypeError
  end.

Definition subscript2 {A} (a : option (np.ndarray2 A)) (i j : Z) : result A :=
  match a with
  | Some a => np.getitem2 a i j
  | None => Raise TypeError
  end.

(** The colour expressions, shared by the build and the recolor paths. *)
Definition gamma_rgba (phase_shift_layer : option (np.ndarray1 real)) (idx : Z)
  : result rgba :=
  v ← subscript1 phase_shift_layer idx; Ok (GAMMA_COLOR, truediv v MAX_PHI).

Definition theta_rgba (theta_checkerboard : option (np.ndarray2 real))
    (point : Z * Z) : result rgba :=
  v ← subscript2 theta_checkerboard point.1 point.2;
  Ok (THETA_COLOR, truediv v MAX_THETA).

Definition phi_rgba (phi_checkerboard : option (np.ndarray2 real))
    (point : Z * Z) : result rgba :=
  v ← subscript2 phi_checkerboard point.1 point.2;
  Ok (PHI_COLOR, truediv v MAX_PHI).

(** [layer = _mzi_poly_idx_to_layer_num(wvg_poly_idx)] followed by
    [if layer > fields.shape[1] - 1: layer = fields.shape[1] - 1]. *)
Definition clamped_layer (fields : np.ndarray2 complex) (wvg_poly_idx : Z) : Z :=
  let layer := _mzi_poly_idx_to_layer_num wvg_poly_idx in
  if layer >? np.shape1 fields - 1 then np.shape1 fields - 1 else layer.

(** [to_rgba(np.abs(fields[self.num_ports - 1 - wvg_idx, layer]))] *)
Definition waveguide_rgba (num_ports_ : Z) (fields : np.ndarray2 complex)
    (wvg_idx wvg_poly_idx : Z) : result rgba :=
  v ← np.getitem2 fields (num_ports_ - 1 - wvg_idx)
                  (clamped_layer fields wvg_poly_idx);
  Ok (hot_to_rgba (np_abs v)).

(** [_add_phase_shift_layer] *)
Definition _add_phase_shift_layer (self : SimRMPhotonicModule) (ax : axes)
    (phase_shift_layer : option (np.ndarray1 real)) (label_size : option real)
  : result (axes * SimRMPhotonicModule) :=
  match phase_shift_layer with
  | None => Ok (ax, self)
  | Some _ =>
    for_each (fun '(ax, self) idx =>
        let ax := text_if label_size ax (ax_text_gamma (idx + 1)) in
        let self := append_patch self (gamma_phase_shift_patch idx) in
        c ← gamma_rgba phase_shift_layer idx;
        Ok (ax, append_rgba self c))
      (range (num_ports self)) (ax, self)
  end.

(** [_add_simulated_theta_phase_shifts] *)
Definition _add_simulated_theta_phase_shifts (self : SimRMPhotonicModule)
    (ax : axes) (theta_checkerboard : option (np.ndarray2 real))
    (label_size : option real) : result (axes * SimRMPhotonicModule) :=
  match theta_checkerboard with
  | None => Ok (ax, self)
  | Some _ =>
    for_each (fun '(ax, self) point =>
        let ax := text_if label_size ax
                    (ax_text_theta (point.1 + 1) (point.2 + 1)) in
        let self := append_patch self (theta_phase_shift_patch point) in
        c ← theta_rgba theta_checkerboard point;
        Ok (ax, append_rgba self c))
      (valid_mesh_points self) (ax, self)
  end.

(** [_add_simulated_phi_phase_shifts] *)
Definition _add_simulated_phi_phase_shifts (self : SimRMPhotonicModule)
    (ax : axes) (phi_checkerboard : option (np.ndarray2 real))
    (label_size : option real) : result (axes * SimRMPhotonicModule) :=
  match phi_checkerboard with
  | None => Ok (ax, self)
  | Some _ =>
    for_each (fun '(ax, self) point =>
        let ax := text_if label_size ax
                    (ax_text_phi (point.1 + 1) (point.2 + 1)) in
        let self := append_patch self (phi_phase_shift_patch point) in
        c ← phi_rgba phi_checkerboard point;
        Ok (ax, append_rgba self c))
      (valid_mesh_points self) (ax, self)
  end.

(** [_construct_mesh_from_fields] *)
Definition _construct_mesh_from_fields (self : SimRMPhotonicModule)
    (fields : np.ndarray2 complex) : result SimRMPhotonicModule :=
  let self := set_mappable self in
  for_each (fun self '(wvg_idx, polygons) =>
      let self := set_num_poly_layers self (Z.of_nat (length polygons)) in
      for_each (fun self '(wvg_poly_idx, polygon_point_list) =>
          let self := append_patch self
                        (waveguide_field_patch polygon_point_list) in
          c ← waveguide_rgba (num_ports self) fields wvg_idx wvg_poly_idx;
          Ok (append_rgba self c))
        (enumerate (reverse polygons)) self)
    (enumerate (fill_pattern self)) self.

(** The [else] branch of [plot_field_propagation]: colours only. *)
Definition recolor (self : SimRMPhotonicModule)
    (fields : np.ndarray2 complex)
    (theta_checkerboard phi_checkerboard : option (np.ndarray2 real))
    (phase_shift_layer : option (np.ndarray1 real))
  : result SimRMPhotonicModule :=
  let self := set_rgba self [] in
  self ← for_each (fun self idx =>
      c ← gamma_rgba phase_shift_layer idx; Ok (append_rgba self c))
    (range (num_ports self)) self;
  self ← for_each (fun self point =>
      c ← theta_rgba theta_checkerboard point; Ok (append_rgba self c))
    (valid_mesh_points self) self;
  self ← for_each (fun self point =>
      c ← phi_rgba phi_checkerboard point; Ok (append_rgba self c))
    (valid_mesh_points self) self;
  self ← for_each (fun self wvg_idx =>
      n ← from_option Ok (Raise AttributeError) (num_poly_layers self);
      for_each (fun self wvg_poly_idx =>
          _ ← from_option Ok (Raise AttributeError)
                (light_amplitude_mappable self);
          c ← waveguide_rgba (num_ports self) fields wvg_idx wvg_poly_idx;
          Ok (append_rgba self c))
        (range n) self)
    (range (num_ports self)) self;
  match simulation_patch_collection self with
  | Some (patches, _) =>
    Ok (set_collection self (patches, simulation_patches_rgba self))
  | None => Raise AttributeError
  end.

(** [plot_field_propagation] *)
Definition plot_field_propagation (self : SimRMPhotonicModule) (ax : axes)
    (fields : np.ndarray2 complex)
    (theta_checkerboard phi_checkerboard : option (np.ndarray2 real))
    (phase_shift_layer : option (np.ndarray1 real))
    (replot : bool) (label_size : option real)
  : result (axes * SimRMPhotonicModule) :=
  if negb (plotted_simulated_fields self) || replot then
    let ax := ax ++ [ax_configure] in
    '(ax, self) ← _add_phase_shift_layer self ax phase_shift_layer label_size;
    '(ax, self) ← _add_simulated_theta_phase_shifts self ax theta_checkerboard
                    label_size;
    '(ax, self) ← _add_simulated_phi_phase_shifts self ax phi_checkerboard
                    label_size;
    self ← _construct_mesh_from_fields self fields;
    let self := set_collection self
                  (simulation_patches self, simulation_patches_rgba self) in
    let ax := ax ++ [ax_add_collection] in
    Ok (ax, set_plotted self)
  else
    self ← recolor self fields theta_checkerboard phi_checkerboard
             phase_shift_layer;
    Ok (ax, self).

(** ** Animation *)

(** What the figure, the writer and the output container see. *)
Inductive event :=
| plt_figure
| fig_clear
| plt_axes
| ax_set_title (title : string)
| writer_create (backend : string) (movie_name : string)
| saving_enter (outfile : string)
| canvas_draw
| grab_frame (facecolors : list rgba)
| saving_exit.

(** [filetype_dict] *)
Definition filetype_dict : gmap string string :=
  {[ "gif" := "imagemagick"; "mp4" := "ffmpeg" ]}.

(** The tensor handed to [plot_field_propagation] by [plot_to_layer]:
    [np.hstack([fields[:layer, :, input_to_propagate].T,
                np.zeros((fields.shape[2], fields.shape[0] - layer - 1))])]. *)
Definition plot_to_layer_fields (fields : np.ndarray3 complex)
    (input_to_propagate layer : Z) : result (np.ndarray2 complex) :=
  shown ← np.take_layers fields layer input_to_propagate;
  dark ← np.zeros complex_zero (np.dim2 fields) (np.dim0 fields - layer - 1);
  np.hstack (np.transpose shown) dark.

(** The arguments [plot_to_layer] passes on for one layer. *)
Record render_call := {
  call_layer : Z;
  call_replot : bool;
  call_fields : np.ndarray2 complex
}.

(** The body of the [with writer.saving(...)] block: for each layer,
    [plot_to_layer(layer)] and [writer.grab_frame()].  The events so far
    are kept when an exception leaves the loop. *)
Fixpoint frame_loop (fields : np.ndarray3 complex)
    (theta_checkerboard phi_checkerboard : option (np.ndarray2 real))
    (phase_shift_layer : option (np.ndarray1 real))
    (input_to_propagate : Z) (layers : list Z)
    (ax : axes) (self : SimRMPhotonicModule) (calls : list render_call)
  : list event * list render_call * result (axes * SimRMPhotonicModule) :=
  match layers with
  | [] => ([], calls, Ok (ax, self))
  | layer :: layers' =>
    match plot_to_layer_fields fields input_to_propagate layer with
    | Raise e => ([], calls, Raise e)
    | Ok shown =>
      let calls := calls ++ [{| call_layer := layer;
                                call_replot := layer =? 0;
                                call_fields := shown |}] in
      match plot_field_propagation self ax shown theta_checkerboard
              phi_checkerboard phase_shift_layer (layer =? 0) None with
      | Raise e => ([], calls, Raise e)
      | Ok (ax, self) =>
        let facecolors :=
          from_option snd [] (simulation_patch_collection self) in
        let '(events, calls, r) :=
          frame_loop fields theta_checkerboard phi_checkerboard
            phase_shift_layer input_to_propagate layers' ax self calls in
        (canvas_draw :: grab_frame facecolors :: events, calls, r)
      end
    end
  end.

(** [animate_field_propagation]: the events, the calls made to the frame
    renderer and the outcome. *)
Definition animate_field_propagation (self : SimRMPhotonicModule)
    (title save_path movie_name : string) (fields : np.ndarray3 complex)
    (theta_checkerboard phi_checkerboard : option (np.ndarray2 real))
    (phase_shift_layer : option (np.ndarray1 real))
    (input_to_propagate : option Z)
    (pbar_handle : option (list Z -> list Z)) (movie_fileext : string)
  : list event * list render_call * result (axes * SimRMPhotonicModule) :=
  let setup := [plt_figure; fig_clear; plt_axes; ax_set_title title] in
  let ax : axes := [] in
  let input_to_propagate := default (num_ports self / 2) input_to_propagate in
  match filetype_dict !! movie_fileext with
  | None => (setup, [], Raise Exception_)
  | Some backend =>
    let layer_iterator :=
      match pbar_handle with
      | Some handle => handle (range (np.dim0 fields))
      | None => range (np.dim0 fields)
      end in
    let outfile := save_path +:+ "/" +:+ movie_name +:+ "." +:+ movie_fileext in
    let '(events, calls, r) :=
      frame_loop fields theta_checkerboard phi_checkerboard phase_shift_layer
        input_to_propagate layer_iterator ax self [] in
    (setup ++ [writer_create backend movie_name; saving_enter outfile]
       ++ events ++ [saving_exit], calls, r)
  end.

(** The frames written to the container. *)
Definition frames (events : list event) : list (list rgba) :=
  omap (fun e => match e with grab_frame cs => Some cs | _ => None end) events.

(** ** Sequences used to state the properties *)








End Renderer.

(** ** The static demo diagram *)

Section Demo.

Context `{Collaborators}.

(** The remaining colour constant of [phoxy.components.utils]. *)
Variable BEAMSPLITTER_COLOR : rgb.

(** [_mzi_poly_idx_to_layer_color(poly_idx)] *)
Definition _mzi_poly_idx_to_layer_color (poly_idx : Z) : rgb :=
  if poly_idx <? 3 then GAMMA_COLOR
  else
    let poly_idx_offset := (poly_idx - 4) mod 10 in
    if poly_idx_offset <=? 1 then BEAMSPLITTER_COLOR
    else if poly_idx_offset <=? 2 then THETA_COLOR
    else if poly_idx_offset <=? 5 then BEAMSPLITTER_COLOR
    else if poly_idx_offset <=? 8 then PHI_COLOR
    else BEAMSPLITTER_COLOR.

(** [self.demo_patches] and [self.demo_patches_rgba]; the demo patch of a
    polygon is built by the same expression as its field patch. *)
Record demo_lists := {
  demo_patches : list patch;
  demo_patches_rgba : list rgb
}.

(** [_construct_mesh_demo] *)
Definition _construct_mesh_demo (self : SimRMPhotonicModule)
    (demo : demo_lists) : SimRMPhotonicModule * demo_lists :=
  let self := set_mappable self in
  foldl (fun '(self, demo) '(wvg_idx, polygons) =>
      let self := set_num_poly_layers self (Z.of_nat (length polygons)) in
      foldl (fun '(self, demo) '(wvg_poly_idx, polygon_point_list) =>
          let color := _mzi_poly_idx_to_layer_color wvg_poly_idx in
          (self,
           {| demo_patches := demo_patches demo
                ++ [waveguide_field_patch polygon_point_list];
              demo_patches_rgba := demo_patches_rgba demo ++ [color] |}))
        (self, demo) (enumerate (reverse polygons)))
    (self, demo) (enumerate (fill_pattern self)).

(** The texts of [plot_mesh_demo], by their string; [n] is [idx + 1]. *)
Inductive demo_text :=
| text_D_gamma               (* [$D_\gamma$] *)
| text_port_in (n : Z)       (* [str(idx + 1)], left of the mesh *)
| text_port_out (n : Z)      (* [str(idx + 1)], right of the mesh *)
| text_B_L (n : Z)           (* [$B_L^{(n)}$] *)
| text_B_R (n : Z)           (* [$B_R^{(n)}$] *)
| text_R_theta (n : Z)       (* [$R_{\theta}^{(n)}$] *)
| text_R_phi (n : Z)         (* [$R_{\phi}^{(n)}$] *)
| text_below (n : Z).        (* [str(idx + 1)], below the mesh *)

(** The calls [plot_mesh_demo] makes on the axes; a text carries its
    colour, where ['yellow'] is [None]. *)
Inductive demo_call :=
| demo_configure
| demo_ax_text (s : demo_text) (color : option rgb) (fontsize : real)
| demo_add_collection (patches : list patch) (facecolors : list rgb).

(** [plot_mesh_demo] *)
Definition plot_mesh_demo (self : SimRMPhotonicModule) (demo : demo_lists)
    (ax : list demo_call) (label_size : option real)
  : list demo_call * SimRMPhotonicModule * demo_lists :=
  let ax := ax ++ [demo_configure] in
  let '(self, demo) := _construct_mesh_demo self demo in
  let ax :=
    match label_size with
    | Some fontsize =>
      let ax := ax ++ [demo_ax_text text_D_gamma (Some GAMMA_COLOR) fontsize] in
      foldl (fun ax idx =>
          ax ++ [demo_ax_text (text_port_in (idx + 1)) None fontsize;
                 demo_ax_text (text_port_out (idx + 1)) None fontsize;
                 demo_ax_text (text_B_L (idx + 1)) (Some BEAMSPLITTER_COLOR)
                   fontsize;
                 demo_ax_text (text_B_R (idx + 1)) (Some BEAMSPLITTER_COLOR)
                   fontsize;
                 demo_ax_text (text_R_theta (idx + 1)) (Some THETA_COLOR)
                   fontsize;
                 demo_ax_text (text_R_phi (idx + 1)) (Some PHI_COLOR) fontsize;
                 demo_ax_text (text_below (idx + 1)) (Some BEAMSPLITTER_COLOR)
                   fontsize;
                 demo_ax_text (text_below (idx + 1)) (Some BEAMSPLITTER_COLOR)
                   fontsize;
                 demo_ax_text (text_below (idx + 1)) (Some THETA_COLOR)
                   fontsize;
                 demo_ax_text (text_below (idx + 1)) (Some PHI_COLOR) fontsize])
        ax (range (num_ports self))
    | None => ax
    end in
  (ax ++ [demo_add_collection (demo_patches demo) (demo_patches_rgba demo)],
   self, demo).

End Demo.

(** ** A small instance to run the model on

    Integers stand for the floats, a colour is a number and a polygon is a
    tag; [/] is integer division and the colour map keeps the magnitude. *)

Definition toy : Collaborators := {|
  real := Z;
  complex := Z;
  rgb := Z;
  polygon := Z;
  GAMMA_COLOR := 1;
  THETA_COLOR := 2;
  PHI_COLOR := 3;
  MAX_THETA := 4;
  MAX_PHI := 8;
  truediv := Z.div;
  np_abs := Z.abs;
  complex_zero := 0;
  hot_to_rgba := fun x => (0, x)
|}.

(** A two-port, two-layer module whose paths have two polygons each, a
    ragged variant of its geometry, and inputs for both. *)

Definition ex_fill : list (list (@polygon toy)) := [[10; 11]; [20; 21]].


Definition ex_fields : np.ndarray2 (@complex toy) :=
  np.mk2 2 3 (fun i j => 10 * (i + 1) + j).

Definition ex_theta : np.ndarray2 (@real toy) := np.mk2 1 2 (fun _ _ => 2).

Definition ex_phi : np.ndarray2 (@real toy) := np.mk2 1 2 (fun _ _ => 4).

Definition ex_gamma : np.ndarray1 (@real toy) := np.mk1 2 (fun i => 8 * i).

(** Five snapshots of a two-port field, for two inputs; no entry is 0. *)
Definition ex_snapshots : np.ndarray3 (@complex toy) :=
  np.mk3 5 2 2 (fun layer port input => 100 * (layer + 1) + 10 * port + input).

(** The freshly constructed example module and its state after the
    initial full build with all arrays supplied. *)
Definition ex_new : result (@SimRMPhotonicModule toy) :=
  @__init__ toy 2 (Some 2) ex_fill.

Definition ex_built : result (@axes toy * @SimRMPhotonicModule toy) :=
  self ← ex_new;
  @plot_field_propagation toy self [] ex_fields (Some ex_theta) (Some ex_phi)
    (Some ex_gamma) true None.

Definition ex_st0 : @SimRMPhotonicModule toy := {|
  num_ports := 2;
  fill_pattern := ex_fill;
  valid_mesh_points := [(0, 0)];
  plotted_simulated_fields := false;
  simulation_patches := [];
  simulation_patches_rgba := [];
  num_poly_layers := None;
  light_amplitude_mappable := None;
  simulation_patch_collection := None
|}.

Definition ex_st1 : @SimRMPhotonicModule toy :=
  Eval vm_compute in
    match ex_built with
    | Ok (_, self) => self
    | Raise _ => ex_st0
    end.

(** A single snapshot of the same field. *)
Definition ex_one_snapshot : np.ndarray3 (@complex toy) :=
  np.mk3 1 2 2 (fun layer port input => 100 * (layer + 1) + 10 * port + input).

(** ** plotting/helpers.py: the checkerboard and triangular mesh points *)

(** [np.ones((r, c))] *)
Definition np_ones (r c : Z) : result (np.ndarray2 Z) :=
  if (r <? 0) || (c <? 0) then Raise ValueError
  else Ok (np.mk2 r c (fun _ _ => 1)).

(** [np.tril(a)]: the entries above the main diagonal become 0. *)
Definition np_tril (a : np.ndarray2 Z) : np.ndarray2 Z :=
  np.mk2 (np.shape0 a) (np.shape1 a)
    (fun i j => if j <=? i then np.item2 a i j else 0).

(** [np.fliplr(a)]: the columns in reverse order. *)
Definition np_fliplr {A} (a : np.ndarray2 A) : np.ndarray2 A :=
  np.mk2 (np.shape0 a) (np.shape1 a)
    (fun i j => np.item2 a i (np.shape1 a - 1 - j)).

(** The size of one axis of a broadcast of two arrays. *)
Definition broadcast_dim (m n : Z) : result Z :=
  if m =? n then Ok m
  else if m =? 1 then Ok n
  else if n =? 1 then Ok m
  else Raise ValueError.

(** [(a == v) * b]: the boolean array as 0 and 1, multiplied entry by
    entry with [b] under numpy's broadcasting. *)
Definition np_eq_times (a : np.ndarray2 Z) (v : Z) (b : np.ndarray2 Z)
  : result (np.ndarray2 Z) :=
  r ← broadcast_dim (np.shape0 a) (np.shape0 b);
  c ← broadcast_dim (np.shape1 a) (np.shape1 b);
  Ok (np.mk2 r c (fun i j =>
        let ia := if np.shape0 a =? 1 then 0 else i in
        let ja := if np.shape1 a =? 1 then 0 else j in
        let ib := if np.shape0 b =? 1 then 0 else i in
        let jb := if np.shape1 b =? 1 then 0 else j in
        (if np.item2 a ia ja =? v then 1 else 0) * np.item2 b ib jb)).

(** [np.where(a)]: the row and column indices of the non-zero cells in
    row-major order. *)
Definition np_nonzero (a : np.ndarray2 Z) : list Z * list Z :=
  let cells :=
    i ← range (np.shape0 a);
    j ← range (np.shape1 a);
    if np.item2 a i j =? 0 then [] else [(i, j)] in
  (cells.*1, cells.*2).

(** [get_checkerboard_points(dim, rank)] *)
Definition get_checkerboard_points (dim rank : Z) : result (list Z * list Z) :=
  checkerboard ← np.zeros 0 (dim - 1) rank;
  let checkerboard := np.setitem_slices checkerboard 0 2 0 2 1 in
  let checkerboard := np.setitem_slices checkerboard 1 2 1 2 1 in
  Ok (np.where_eq checkerboard 1).

(** [get_triangular_mesh_points(dim)] *)
Definition get_triangular_mesh_points (dim : Z) : result (list Z * list Z) :=
  checkerboard ← np.zeros 0 (dim - 1) (dim * 2);
  let checkerboard := np.setitem_slices checkerboard 0 2 0 2 1 in
  let checkerboard := np.setitem_slices checkerboard 1 2 1 2 1 in
  left ← np_ones (dim - 1) dim;
  right ← np_ones (dim - 1) dim;
  triangular_mask ← np.hstack (np_fliplr (np_tril left)) (np_tril right);
  masked ← np_eq_times checkerboard 1 triangular_mask;
  Ok (np_nonzero masked).

(** The cells of the triangle: row [i] spans the columns
    [dim - 1 - i .. dim + i]. *)
Definition in_triangle (dim i j : Z) : bool :=
  (dim - 1 - i <=? j) && (j <=? dim + i).

(** The number of same-parity cells of an [r x c] grid. *)
Definition checkerboard_count (r c : Z) : Z :=
  ((r + 1) / 2) * ((c + 1) / 2) + (r / 2) * (c / 2).

(** The points of the triangular mesh in the words of the drawing code:
    the same-parity cells of the [(dim - 1) x 2 dim] grid inside the
    triangle, in row-major order. *)
Definition triangular_points_spec (dim : Z) : list (Z * Z) :=
  filter (fun c => same_parity c.1 c.2 && in_triangle dim c.1 c.2 = true)
    (grid_cells dim (dim * 2)).

(** ** utils.py: the phases that program a vector *)

(** [l[i]] on a Python list or one-dimensional array. *)
Definition py_getitem {A} (l : list A) (i : Z) : result A :=
  i' ← np.axis_index (Z.of_nat (length l)) i;
  from_option Ok (Raise IndexError) (l !! Z.to_nat i').

Section VectorToPhases.

(** The entries of the vector, the phases, and [SMMZI.nullify] of
    neurophox, which returns the new vector and the two phases (its second
    result is dropped by the caller). *)
Variables (scalar phase : Type).
Variable nullify : list scalar -> Z -> bool -> bool -> list scalar * phase * phase.

(** [vector_to_phases(vector, lower_theta, lower_phi)] *)
Definition vector_to_phases (vector : list scalar)
    (lower_theta lower_phi : list bool) : result (list phase * list phase) :=
  let n := Z.of_nat (length vector) in
  '(v, thetas, phis) ← for_each (fun '(v, thetas, phis) i =>
      let j := n - 2 - i in
      lt ← py_getitem lower_theta j;
      lp ← py_getitem lower_phi j;
      let '(v, theta, phi) := nullify v j lt lp in
      Ok (v, thetas ++ [theta], phis ++ [phi]))
    (range (n - 1)) (vector, [], []);
  Ok (reverse thetas, reverse phis).

(** The vector that reaches the MZI at index [j]: the input after the
    MZIs at the [k] indices above [j] have been nullified, top down
    ([j + k] is the first index nullified). *)
Fixpoint vector_above (vector : list scalar) (lower_theta lower_phi : list bool)
    (j : Z) (k : nat) : list scalar :=
  match k with
  | O => vector
  | S k' =>
    (nullify (vector_above vector lower_theta lower_phi (j + 1) k') (j + 1)
       (default false (lower_theta !! Z.to_nat (j + 1)))
       (default false (lower_phi !! Z.to_nat (j + 1)))).1.1
  end.

End VectorToPhases.

(** * Properties *)

(** ** The error monad and the loops *)

Lemma bind_Ok {A B} (f : A -> result B) (a : A) : Ok a ≫= f = f a.
Proof. reflexivity. Qed.

Lemma bind_Raise {A B} (f : A -> result B) (e : exn) : Raise e ≫= f = Raise e.
Proof. reflexivity. Qed.

Lemma bind_Ok_inv {A B} (f : A -> result B) (m : result A) (b : B) :
  m ≫= f = Ok b -> exists a, m = Ok a /\ f a = Ok b.
Proof. destruct m as [a|e]; [eauto|discriminate]. Qed.

Lemma map_result_app {A B} (f : A -> result B) (xs ys : list A) :
  map_result f (xs ++ ys)
  = (us ← map_result f xs; vs ← map_result f ys; Ok (us ++ vs)).
Proof.
  induction xs as [|x xs IH]; simpl.
  - destruct (map_result f ys); reflexivity.
  - destruct (f x) as [y|e]; [|reflexivity]. rewrite !bind_Ok, IH.
    destruct (map_result f xs); [|reflexivity].
    rewrite !bind_Ok. destruct (map_result f ys); reflexivity.
Qed.




(** ** Mesh topology indexer *)

Section Topology.

Lemma range_elem (n k : Z) : k ∈ range n <-> 0 <= k < n.
Proof. unfold range. rewrite elem_of_seqZ. lia. Qed.

Lemma in_slice_even (i : Z) : 0 <= i -> np.in_slice 0 2 i = Z.even i.
Proof.
  intros Hi. unfold np.in_slice. rewrite Z.sub_0_r.
  replace (0 <=? i) with true by (symmetry; apply Z.leb_le; lia). simpl.
  rewrite Zeven_mod. reflexivity.
Qed.

Lemma in_slice_odd (i : Z) : 0 <= i -> np.in_slice 1 2 i = Z.odd i.
Proof.
  intros Hi. unfold np.in_slice.
  destruct (Z.leb_spec 1 i) as [H1|H1]; simpl.
  - rewrite <- Zeven_mod. rewrite Z.even_sub. simpl.
    rewrite <- Z.negb_odd. by destruct (Z.odd i).
  - assert (i = 0) by lia. by subst.
Qed.

(** After the two slice assignments a cell holds 1 exactly where port and
    layer have the same parity. *)
Lemma checkerboard_item (r c i j : Z) :
  0 <= i -> 0 <= j ->
  (np.item2
     (np.setitem_slices
        (np.setitem_slices (np.mk2 r c (fun _ _ => 0)) 0 2 0 2 1) 1 2 1 2 1)
     i j =? 1) = same_parity i j.
Proof.
  intros Hi Hj. simpl.
  rewrite !in_slice_even, !in_slice_odd by done. unfold same_parity.
  rewrite <- !Z.negb_odd.
  destruct (Z.odd i), (Z.odd j); reflexivity.
Qed.

Lemma bind_filter_cells (f g : Z -> Z -> bool) (xs ys : list Z) :
  (forall i j, i ∈ xs -> j ∈ ys -> f i j = g i j) ->
  (i ← xs; j ← ys; if f i j then [(i, j)] else [])
  = filter (fun c => g c.1 c.2 = true) (i ← xs; j ← ys; [(i, j)]).
Proof.
  intros Hfg. induction xs as [|x xs IH]; [done|].
  rewrite !bind_cons, filter_app, <- IH by (intros; apply Hfg; set_solver).
  f_equal.
  assert (forall j, j ∈ ys -> f x j = g x j) as Hx
    by (intros; apply Hfg; set_solver).
  clear IH Hfg. induction ys as [|y ys IH]; [done|].
  rewrite !bind_cons, filter_app, <- IH by (intros; apply Hx; set_solver).
  f_equal. rewrite (Hx y) by set_solver. simpl.
  rewrite filter_cons. simpl. destruct (g x y); reflexivity.
Qed.

Lemma mesh_points_ok (num_ports depth : Z) :
  1 <= num_ports -> 0 <= depth ->
  _get_rectangular_mesh_points num_ports depth
  = Ok ((validPositions_spec num_ports depth).*1,
        (validPositions_spec num_ports depth).*2).
Proof.
  intros Hp Hd. unfold _get_rectangular_mesh_points, np.zeros.
  replace ((num_ports - 1 <? 0) || (depth <? 0)) with false
    by (symmetry; apply orb_false_iff; split; apply Z.ltb_ge; lia).
  rewrite bind_Ok. unfold np.where_eq. cbn [np.shape0 np.shape1 np.setitem_slices].
  unfold validPositions_spec, grid_cells.
  rewrite <- (bind_filter_cells
    (fun i j => np.item2
       (np.setitem_slices
          (np.setitem_slices (np.mk2 (num_ports - 1) depth (fun _ _ => 0))
             0 2 0 2 1) 1 2 1 2 1) i j =? 1)).
  - reflexivity.
  - intros i j Hi Hj. apply range_elem in Hi, Hj.
    apply checkerboard_item; lia.
Qed.

Lemma mesh_points_negative (num_ports depth : Z) :
  num_ports < 1 \/ depth < 0 ->
  _get_rectangular_mesh_points num_ports depth = Raise ValueError.
Proof.
  intros Hneg. unfold _get_rectangular_mesh_points, np.zeros.
  replace ((num_ports - 1 <? 0) || (depth <? 0)) with true; [done|].
  symmetry. apply orb_true_iff. destruct Hneg; [left|right]; apply Z.ltb_lt; lia.
Qed.

Lemma validPositions_spec_elem (num_ports depth p l : Z) :
  (p, l) ∈ validPositions_spec num_ports depth
  <-> 0 <= p < num_ports - 1 /\ 0 <= l < depth /\ same_parity p l = true.
Proof.
  unfold validPositions_spec, grid_cells.
  rewrite list_elem_of_filter, list_elem_of_bind. simpl. split.
  - intros (Hpar & i & Hin & Hi). apply list_elem_of_bind in Hin.
    destruct Hin as (j & Hin & Hj). apply list_elem_of_singleton in Hin.
    inversion Hin; subst. apply range_elem in Hi, Hj. done.
  - intros (Hp & Hl & Hpar). split; [done|]. exists p. split.
    + apply list_elem_of_bind. exists l. split; [set_solver|by apply range_elem].
    + by apply range_elem.
Qed.

Lemma seqZ_sorted (m n : Z) : StronglySorted Z.lt (seqZ m n).
Proof.
  destruct (Z.le_gt_cases n 0) as [Hn|Hn].
  - rewrite seqZ_nil by done. constructor.
  - rewrite <- (Z2Nat.id n) by lia. generalize (Z.to_nat n) as k. clear.
    intros k. revert m. induction k as [|k IH]; intros m.
    + rewrite seqZ_nil by done. constructor.
    + rewrite seqZ_cons by lia. constructor.
      * replace (Z.pred (Z.of_nat (S k))) with (Z.of_nat k) by lia. apply IH.
      * apply Forall_forall. intros x Hx. apply elem_of_seqZ in Hx. lia.
Qed.

Lemma filter_sorted {A} (R : relation A) (P : A -> Prop)
    `{forall x, Decision (P x)} (l : list A) :
  StronglySorted R l -> StronglySorted R (filter P l).
Proof.
  induction 1 as [|x l Hl IH Hx]; [constructor|].
  rewrite filter_cons. destruct (decide (P x)); [|done].
  constructor; [done|]. apply Forall_forall. intros y Hy.
  apply list_elem_of_filter in Hy. rewrite Forall_forall in Hx. naive_solver.
Qed.

Lemma grid_cells_sorted (num_ports depth : Z) :
  StronglySorted cell_lt (grid_cells num_ports depth).
Proof.
  unfold grid_cells, range.
  generalize (seqZ_sorted 0 (num_ports - 1)).
  generalize (seqZ 0 (num_ports - 1)) as ps.
  induction ps as [|p ps IH]; intros Hps; [constructor|].
  apply StronglySorted_cons in Hps. destruct Hps as [Hp Hps].
  rewrite bind_cons. apply StronglySorted_app_2; [| |by apply IH].
  - intros [p1 l1] [p2 l2] H1 H2.
    apply list_elem_of_bind in H1. destruct H1 as (j1 & H1 & _).
    apply list_elem_of_singleton in H1. inversion H1; subst.
    apply list_elem_of_bind in H2. destruct H2 as (p' & H2 & Hp').
    apply list_elem_of_bind in H2. destruct H2 as (j2 & H2 & _).
    apply list_elem_of_singleton in H2. inversion H2; subst.
    rewrite Forall_forall in Hp. left. simpl. by apply Hp.
  - generalize (seqZ_sorted 0 depth). generalize (seqZ 0 depth) as ls.
    clear. induction ls as [|l ls IH]; intros Hls; [constructor|].
    apply StronglySorted_cons in Hls. destruct Hls as [Hl Hls].
    rewrite bind_cons. simpl. constructor; [by apply IH|].
    apply Forall_forall. intros [p' l'] Hin.
    apply list_elem_of_bind in Hin. destruct Hin as (j & Hin & Hj).
    apply list_elem_of_singleton in Hin. inversion Hin; subst.
    rewrite Forall_forall in Hl. right. simpl. split; [done|by apply Hl].
Qed.

(** C1. For num_ports >= 2 and depth >= 1, [_get_rectangular_mesh_points]
    returns (as its row and column index arrays, and so as the rows of
    [valid_mesh_points]) exactly the cells (p, l) of the
    (num_ports - 1) x depth grid whose port and layer have the same parity,
    in row-major port-then-layer order; for num_ports = 4 and depth = 4
    these are 6 positions. *)
Theorem C1_valid_positions_checkerboard (num_ports depth : Z) :
  2 <= num_ports -> 1 <= depth ->
  exists points,
    _get_rectangular_mesh_points num_ports depth = Ok (points.*1, points.*2)
    /\ valid_mesh_points_of num_ports depth = Ok points
    /\ points = validPositions_spec num_ports depth
    /\ (forall p l, (p, l) ∈ points
          <-> 0 <= p < num_ports - 1 /\ 0 <= l < depth
              /\ same_parity p l = true)
    /\ StronglySorted cell_lt points
    /\ (num_ports = 4 -> depth = 4 -> length points = 6%nat).
Proof.
  intros Hp Hd. exists (validPositions_spec num_ports depth).
  assert (_get_rectangular_mesh_points num_ports depth
          = Ok ((validPositions_spec num_ports depth).*1,
                (validPositions_spec num_ports depth).*2)) as Hcode
    by (apply mesh_points_ok; lia).
  split; [done|]. split.
  { unfold valid_mesh_points_of. rewrite Hcode, bind_Ok.
    by rewrite zip_fst_snd. }
  split; [done|]. split; [apply validPositions_spec_elem|]. split.
  - apply filter_sorted, grid_cells_sorted.
  - intros -> ->. reflexivity.
Qed.

Lemma C1_valid_positions_witness :
  exists points,
    _get_rectangular_mesh_points 4 4 = Ok (points.*1, points.*2)
    /\ valid_mesh_points_of 4 4 = Ok points
    /\ points = validPositions_spec 4 4
    /\ (forall p l, (p, l) ∈ points
          <-> 0 <= p < 4 - 1 /\ 0 <= l < 4 /\ same_parity p l = true)
    /\ StronglySorted cell_lt points
    /\ (4 = 4 -> 4 = 4 -> length points = 6%nat).
Proof. apply (C1_valid_positions_checkerboard 4 4); lia. Defined.

Lemma validPositions_spec_degenerate (num_ports depth : Z) :
  num_ports < 2 \/ depth < 1 -> validPositions_spec num_ports depth = [].
Proof.
  intros Hdeg. destruct (validPositions_spec num_ports depth) as [|[p l] ps] eqn:E;
    [done|].
  assert ((p, l) ∈ validPositions_spec num_ports depth) as Hin
    by (rewrite E; set_solver).
  apply validPositions_spec_elem in Hin. lia.
Qed.

(** C4 (as stated) fails: with num_ports = 0 the grid would have -1 rows
    and [np.zeros] raises [ValueError]. *)
Lemma C4_degenerate_counterexample :
  (0 < 2 \/ 1 < 1)
  /\ _get_rectangular_mesh_points 0 1 = Raise ValueError
  /\ valid_mesh_points_of 0 1 = Raise ValueError
  /\ _get_rectangular_mesh_points 0 1 <> Ok ([], []).
Proof.
  split; [left; lia|]. split; [reflexivity|]. split; [reflexivity|].
  discriminate.
Qed.

(** C4 (amended). A degenerate input (num_ports < 2 or depth < 1) whose
    grid dimensions are not negative (num_ports >= 1 and depth >= 0) yields
    the empty set of positions and no error; when num_ports < 1 or
    depth < 0 the allocation of the grid raises [ValueError]. *)
Theorem C4_degenerate_inputs (num_ports depth : Z) :
  num_ports < 2 \/ depth < 1 ->
  (1 <= num_ports -> 0 <= depth ->
     _get_rectangular_mesh_points num_ports depth = Ok ([], [])
     /\ valid_mesh_points_of num_ports depth = Ok [])
  /\ (num_ports < 1 \/ depth < 0 ->
     _get_rectangular_mesh_points num_ports depth = Raise ValueError
     /\ valid_mesh_points_of num_ports depth = Raise ValueError).
Proof.
  intros Hdeg. split.
  - intros Hp Hd. unfold valid_mesh_points_of.
    rewrite mesh_points_ok, validPositions_spec_degenerate by done. done.
  - intros Hneg. unfold valid_mesh_points_of.
    rewrite mesh_points_negative by done. done.
Qed.

Lemma C4_degenerate_inputs_witness :
  (1 <= 1 -> 0 <= 3 ->
     _get_rectangular_mesh_points 1 3 = Ok ([], [])
     /\ valid_mesh_points_of 1 3 = Ok [])
  /\ (1 < 1 \/ 3 < 0 ->
     _get_rectangular_mesh_points 1 3 = Raise ValueError
     /\ valid_mesh_points_of 1 3 = Raise ValueError).
Proof. apply (C4_degenerate_inputs 1 3). left. lia. Defined.

End Topology.

(** ** Polygon index to sub-layer *)

Section LayerMapper.

(** Quotient and offset of [poly_idx - 4] by 10, as linear facts. *)
Lemma unit_offset (i : Z) :
  exists q r, (i - 4) / 10 = q /\ (i - 4) mod 10 = r
              /\ i - 4 = 10 * q + r /\ 0 <= r < 10.
Proof.
  exists ((i - 4) / 10), ((i - 4) mod 10). repeat split.
  - apply Z.div_mod. lia.
  - apply Z.mod_pos_bound. lia.
  - apply Z.mod_pos_bound. lia.
Qed.

Ltac layer_cases :=
  repeat match goal with
  | |- context [?a =? ?b] => destruct (Z.eqb_spec a b)
  | |- context [?a <=? ?b] => destruct (Z.leb_spec a b)
  | H : context [?a =? ?b] |- _ => destruct (Z.eqb_spec a b)
  | H : context [?a <=? ?b] |- _ => destruct (Z.leb_spec a b)
  end; simpl in *; try lia.

Lemma layer_num_unfold (i : Z) :
  i <> 0 ->
  exists q r, i - 4 = 10 * q + r /\ 0 <= r < 10
    /\ (i - 4) / 10 = q /\ (i - 4) mod 10 = r
    /\ _mzi_poly_idx_to_layer_num i
       = 4 * q + 1 + (if r <=? 2 then 0 else if r <=? 3 then 1
                      else if r <=? 6 then 2 else 3).
Proof.
  intros Hi. destruct (unit_offset i) as (q & r & Hq & Hr & Heq & Hb).
  exists q, r. repeat split; try done; try lia.
  unfold _mzi_poly_idx_to_layer_num. rewrite Hq, Hr.
  destruct (Z.eqb_spec i 0); [done|]. layer_cases.
Qed.

(** C5. [_mzi_poly_idx_to_layer_num 0 = 0], and for every index > 0 the
    result is 4 * ((index - 4) div 10) + 1, plus 1 when the offset
    (index - 4) mod 10 is 3, plus 2 when it is in [4,6], plus 3 when it is
    in [7,9]: the offsets 0..9 fall into bands of width 3, 1, 3, 3. *)
Theorem C5_sublayer_formula :
  _mzi_poly_idx_to_layer_num 0 = 0
  /\ (forall index, 0 < index ->
        _mzi_poly_idx_to_layer_num index = subLayerOf_spec index)
  /\ band_of_offset <$> range 10 = [0; 0; 0; 1; 2; 2; 2; 3; 3; 3].
Proof.
  split; [reflexivity|]. split; [|reflexivity].
  intros index Hpos.
  destruct (layer_num_unfold index) as (q & r & Heq & Hb & Hq & Hr & ->); [lia|].
  unfold subLayerOf_spec, band_of_offset. rewrite Hq, Hr. layer_cases.
Qed.

Lemma layer_num_nonneg (i : Z) : 0 <= i -> 0 <= _mzi_poly_idx_to_layer_num i.
Proof.
  intros Hi. destruct (Z.eq_dec i 0) as [-> | Hne]; [done|].
  destruct (layer_num_unfold i) as (q & r & Heq & Hb & _ & _ & ->); [done|].
  layer_cases.
Qed.

Lemma layer_num_mono (i j : Z) :
  0 <= i <= j -> _mzi_poly_idx_to_layer_num i <= _mzi_poly_idx_to_layer_num j.
Proof.
  intros Hij. destruct (Z.eq_dec i 0) as [-> | Hi].
  { change (_mzi_poly_idx_to_layer_num 0) with 0. apply layer_num_nonneg. lia. }
  destruct (layer_num_unfold i) as (q & r & Heq & Hb & _ & _ & ->); [done|].
  destruct (layer_num_unfold j) as (q' & r' & Heq' & Hb' & _ & _ & ->); [lia|].
  layer_cases.
Qed.

(** C10. Each of the four leading polygon indices 0, 1, 2, 3 maps to
    sub-layer 0: for 1, 2, 3 the floor quotient (i - 4) div 10 is -1 and the
    offset (i - 4) mod 10 is 7, 8 or 9, so the result is (-4 + 1) + 3 = 0;
    and the mapping is monotonically non-decreasing over the indices >= 0. *)
Theorem C10_leading_polygons_and_monotone :
  (forall i, 0 <= i <= 3 ->
     _mzi_poly_idx_to_layer_num i = 0
     /\ (1 <= i ->
           (i - 4) / 10 = -1
           /\ 7 <= (i - 4) mod 10 <= 9
           /\ _mzi_poly_idx_to_layer_num i = ((i - 4) / 10 * 4 + 1) + 3))
  /\ (forall i j, 0 <= i <= j ->
        _mzi_poly_idx_to_layer_num i <= _mzi_poly_idx_to_layer_num j).
Proof.
  split; [|apply layer_num_mono].
  intros i Hi.
  assert (i = 0 \/ i = 1 \/ i = 2 \/ i = 3) as Hcases by lia.
  destruct Hcases as [-> | [-> | [-> | ->]]]; repeat split; try reflexivity;
    try lia; try discriminate.
Qed.

Lemma C10_leading_polygons_witness :
  (_mzi_poly_idx_to_layer_num 3 = 0
   /\ (1 <= 3 ->
         (3 - 4) / 10 = -1
         /\ 7 <= (3 - 4) mod 10 <= 9
         /\ _mzi_poly_idx_to_layer_num 3 = ((3 - 4) / 10 * 4 + 1) + 3))
  /\ _mzi_poly_idx_to_layer_num 3 <= _mzi_poly_idx_to_layer_num 14.
Proof.
  split.
  - apply (proj1 C10_leading_polygons_and_monotone 3). lia.
  - apply (proj2 C10_leading_polygons_and_monotone 3 14). lia.
Defined.

Lemma C5_sublayer_formula_witness :
  _mzi_poly_idx_to_layer_num 17 = subLayerOf_spec 17
  /\ _mzi_poly_idx_to_layer_num 17 = 6.
Proof.
  split; [|reflexivity].
  apply (proj1 (proj2 C5_sublayer_formula) 17). lia.
Defined.

End LayerMapper.

(** ** Clamping of the sub-layer *)

Section Clamp.

Context `{Collaborators}.

Lemma axis_index_in_range (n i : Z) : 0 <= i < n -> np.axis_index n i = Ok i.
Proof.
  intros Hi. unfold np.axis_index.
  destruct (Z.leb_spec 0 i); [|lia]. destruct (Z.ltb_spec i n); [done|lia].
Qed.

Lemma axis_index_Ok (n i k : Z) : np.axis_index n i = Ok k -> 0 <= k < n.
Proof.
  unfold np.axis_index.
  destruct (Z.leb_spec 0 i), (Z.ltb_spec i n); simpl;
    try (intros [= <-]; lia);
    destruct (Z.leb_spec (- n) i), (Z.ltb_spec i 0); simpl;
    try discriminate; intros [= <-]; lia.
Qed.

Lemma clamped_layer_max (fields : np.ndarray2 complex) (wvg_poly_idx : Z) :
  _mzi_poly_idx_to_layer_num wvg_poly_idx >= np.shape1 fields - 1 ->
  clamped_layer fields wvg_poly_idx = np.shape1 fields - 1.
Proof.
  intros Hge. unfold clamped_layer.
  destruct (Z.gtb_spec (_mzi_poly_idx_to_layer_num wvg_poly_idx)
              (np.shape1 fields - 1)); lia.
Qed.

Lemma clamped_layer_le (fields : np.ndarray2 complex) (wvg_poly_idx : Z) :
  clamped_layer fields wvg_poly_idx <= np.shape1 fields - 1.
Proof.
  unfold clamped_layer.
  destruct (Z.gtb_spec (_mzi_poly_idx_to_layer_num wvg_poly_idx)
              (np.shape1 fields - 1)); lia.
Qed.

Lemma clamped_layer_bounds (fields : np.ndarray2 complex) (wvg_poly_idx : Z) :
  1 <= np.shape1 fields -> 0 <= wvg_poly_idx ->
  0 <= clamped_layer fields wvg_poly_idx < np.shape1 fields.
Proof.
  intros Hs Hi. pose proof (layer_num_nonneg wvg_poly_idx Hi).
  unfold clamped_layer.
  destruct (Z.gtb_spec (_mzi_poly_idx_to_layer_num wvg_poly_idx)
              (np.shape1 fields - 1)); lia.
Qed.

Lemma waveguide_rgba_in_bounds (num_ports_ : Z) (fields : np.ndarray2 complex)
    (wvg_idx wvg_poly_idx : Z) :
  1 <= np.shape1 fields -> 0 <= wvg_poly_idx ->
  0 <= num_ports_ - 1 - wvg_idx < np.shape0 fields ->
  waveguide_rgba num_ports_ fields wvg_idx wvg_poly_idx
  = Ok (hot_to_rgba (np_abs (np.item2 fields (num_ports_ - 1 - wvg_idx)
                               (clamped_layer fields wvg_poly_idx)))).
Proof.
  intros Hs Hi Hrow. unfold waveguide_rgba, np.getitem2.
  rewrite (axis_index_in_range (np.shape0 fields)) by done.
  rewrite (axis_index_in_range (np.shape1 fields))
    by (by apply clamped_layer_bounds).
  reflexivity.
Qed.

(** C6 (amended). For a field tensor with at least one sub-layer column
    and a polygon index >= 0: when the computed sub-layer is >= the maximum
    sub-layer index [fields.shape[1] - 1] the index used is exactly that
    maximum; the index used always lies in [0, fields.shape[1] - 1], so the
    column access is in bounds and, for a row inside the tensor, reading
    the entry raises nothing. *)
Theorem C6_clamp_in_bounds (fields : np.ndarray2 complex)
    (wvg_poly_idx : Z) :
  1 <= np.shape1 fields -> 0 <= wvg_poly_idx ->
  (_mzi_poly_idx_to_layer_num wvg_poly_idx >= np.shape1 fields - 1 ->
     clamped_layer fields wvg_poly_idx = np.shape1 fields - 1)
  /\ 0 <= clamped_layer fields wvg_poly_idx <= np.shape1 fields - 1
  /\ np.axis_index (np.shape1 fields) (clamped_layer fields wvg_poly_idx)
     = Ok (clamped_layer fields wvg_poly_idx)
  /\ (forall num_ports_ wvg_idx,
        0 <= num_ports_ - 1 - wvg_idx < np.shape0 fields ->
        waveguide_rgba num_ports_ fields wvg_idx wvg_poly_idx
        = Ok (hot_to_rgba (np_abs (np.item2 fields (num_ports_ - 1 - wvg_idx)
                                     (clamped_layer fields wvg_poly_idx))))).
Proof.
  intros Hs Hi. pose proof (clamped_layer_bounds fields wvg_poly_idx Hs Hi).
  split; [apply clamped_layer_max|]. split; [lia|].
  split; [by apply axis_index_in_range|].
  intros. by apply waveguide_rgba_in_bounds.
Qed.

End Clamp.

(** C6 (as stated) fails on a tensor without sub-layer columns, such as
    the one a one-layer animation hands to the renderer: the computed
    sub-layer 0 is >= the maximum index -1, the index used is -1, and
    reading the entry raises [IndexError]. *)
Lemma C6_clamp_counterexample :
  let fields : np.ndarray2 (@complex toy) := np.mk2 1 0 (fun _ _ => 5) in
  _mzi_poly_idx_to_layer_num 0 >= np.shape1 fields - 1
  /\ @clamped_layer toy fields 0 = -1
  /\ np.getitem2 fields 0 (@clamped_layer toy fields 0) = Raise IndexError
  /\ @waveguide_rgba toy 1 fields 0 0 = Raise IndexError.
Proof.
  intros fields. split; [vm_compute; discriminate|]. repeat split.
Qed.

Lemma C6_clamp_in_bounds_witness :
  let fields : np.ndarray2 (@complex toy) := np.mk2 2 3 (fun i j => i + j) in
  (_mzi_poly_idx_to_layer_num 17 >= np.shape1 fields - 1 ->
     @clamped_layer toy fields 17 = np.shape1 fields - 1)
  /\ 0 <= @clamped_layer toy fields 17 <= np.shape1 fields - 1
  /\ np.axis_index (np.shape1 fields) (@clamped_layer toy fields 17)
     = Ok (@clamped_layer toy fields 17)
  /\ (forall num_ports_ wvg_idx,
        0 <= num_ports_ - 1 - wvg_idx < np.shape0 fields ->
        @waveguide_rgba toy num_ports_ fields wvg_idx 17
        = Ok (@hot_to_rgba toy
                (@np_abs toy (np.item2 fields (num_ports_ - 1 - wvg_idx)
                                (@clamped_layer toy fields 17))))).
Proof.
  intros fields. apply (@C6_clamp_in_bounds toy fields 17); simpl; lia.
Defined.

(** ** The patch builder and the frame renderer *)

Section RendererProperties.

Context `{Collaborators}.











Lemma range_length (n : Z) : length (range n) = Z.to_nat n.
Proof. apply length_seqZ. Qed.


Lemma enumerate_fst {A} (xs : list A) :
  (enumerate xs).*1 = range (Z.of_nat (length xs)).
Proof.
  unfold enumerate. apply fst_zip. rewrite range_length. lia.
Qed.














(** ** Full build and recolor *)














(** ** Omitted optional arguments *)

(** On the build branch an omitted array skips its patch kind. *)
Lemma build_skips_omitted (s : SimRMPhotonicModule) (ax : axes)
    (label_size : option real) :
  _add_phase_shift_layer s ax None label_size = Ok (ax, s)
  /\ _add_simulated_theta_phase_shifts s ax None label_size = Ok (ax, s)
  /\ _add_simulated_phi_phase_shifts s ax None label_size = Ok (ax, s).
Proof. repeat split. Qed.

(** On the build branch with all arrays omitted only the waveguide
    colours are computed. *)
Lemma build_all_omitted (s : SimRMPhotonicModule) (ax : axes)
    (fields : np.ndarray2 complex) (replot : bool)
    (label_size : option real) :
  negb (plotted_simulated_fields s) || replot = true ->
  fst <$> plot_field_propagation s ax fields None None None replot label_size
  = (_ ← _construct_mesh_from_fields s fields;
     Ok (ax ++ [ax_configure; ax_add_collection])).
Proof.
  intros Hbranch. unfold plot_field_propagation. rewrite Hbranch.
  cbn [_add_phase_shift_layer _add_simulated_theta_phase_shifts
       _add_simulated_phi_phase_shifts]. rewrite !bind_Ok. cbv beta iota.
  destruct (_construct_mesh_from_fields s fields) as [s'|e]; [|done].
  rewrite !bind_Ok. cbn [fmap result_fmap fst].
  by rewrite <- app_assoc.
Qed.

(** The recolor branch never reads [label_size]. *)
Lemma recolor_ignores_label_size (s : SimRMPhotonicModule) (ax : axes)
    (fields : np.ndarray2 complex) (theta phi : option (np.ndarray2 real))
    (gamma : option (np.ndarray1 real)) (label_size : option real) :
  plotted_simulated_fields s = true ->
  plot_field_propagation s ax fields theta phi gamma false label_size
  = plot_field_propagation s ax fields theta phi gamma false None.
Proof. intros Hp. unfold plot_field_propagation. by rewrite Hp. Qed.

Lemma range_pos (n : Z) : 0 < n -> range n = 0 :: seqZ 1 (n - 1).
Proof. intros Hn. unfold range. by rewrite seqZ_cons by done. Qed.

(** The recolor branch subscripts [phase_shift_layer] without looking at
    whether it was supplied. *)
Lemma recolor_omitted_gamma (s : SimRMPhotonicModule) (ax : axes)
    (fields : np.ndarray2 complex) (theta phi : option (np.ndarray2 real))
    (label_size : option real) :
  plotted_simulated_fields s = true ->
  0 < num_ports s ->
  plot_field_propagation s ax fields theta phi None false label_size
  = Raise TypeError.
Proof.
  intros Hp Hn. unfold plot_field_propagation, recolor. rewrite Hp.
  cbn [negb orb num_ports set_rgba]. by rewrite range_pos.
Qed.

(** ** Animation *)

Lemma filetype_dict_lookup (movie_fileext backend : string) :
  filetype_dict !! movie_fileext = Some backend
  <-> (movie_fileext = "gif" /\ backend = "imagemagick")
      \/ (movie_fileext = "mp4" /\ backend = "ffmpeg").
Proof.
  unfold filetype_dict. rewrite lookup_insert_Some, lookup_singleton_Some.
  naive_solver.
Qed.

Lemma filetype_dict_unsupported (movie_fileext : string) :
  movie_fileext <> "gif" -> movie_fileext <> "mp4" ->
  filetype_dict !! movie_fileext = None.
Proof.
  intros Hgif Hmp4. destruct (filetype_dict !! movie_fileext) as [b|] eqn:E;
    [|done].
  apply filetype_dict_lookup in E. naive_solver.
Qed.

(** C7. The container extension is looked up in the two-entry table
    gif -> imagemagick, mp4 -> ffmpeg, and nothing else is accepted: for
    any other extension the call raises after the figure set-up, before
    the writer is created and before the container is opened, so that no
    frame is written; for an accepted extension the writer of the mapped
    backend is created and the container
    [save_path/movie_name.movie_fileext] is opened. *)
Theorem C7_container_extension (self : SimRMPhotonicModule)
    (title save_path movie_name : string) (fields : np.ndarray3 complex)
    (theta phi : option (np.ndarray2 real))
    (gamma : option (np.ndarray1 real)) (input_to_propagate : option Z)
    (pbar_handle : option (list Z -> list Z)) (movie_fileext : string) :
  (forall backend,
     filetype_dict !! movie_fileext = Some backend
     <-> (movie_fileext = "gif" /\ backend = "imagemagick")
         \/ (movie_fileext = "mp4" /\ backend = "ffmpeg"))
  /\ (movie_fileext <> "gif" -> movie_fileext <> "mp4" ->
      exists events,
        animate_field_propagation self title save_path movie_name fields
          theta phi gamma input_to_propagate pbar_handle movie_fileext
        = (events, [], Raise Exception_)
        /\ events = [plt_figure; fig_clear; plt_axes; ax_set_title title]
        /\ frames events = []
        /\ (forall e, e ∈ events ->
              match e with
              | writer_create _ _ | saving_enter _ | grab_frame _
              | saving_exit | canvas_draw => False
              | _ => True
              end))
  /\ (forall backend,
        filetype_dict !! movie_fileext = Some backend ->
        exists events calls r,
          animate_field_propagation self title save_path movie_name fields
            theta phi gamma input_to_propagate pbar_handle movie_fileext
          = ([plt_figure; fig_clear; plt_axes; ax_set_title title]
             ++ [writer_create backend movie_name;
                 saving_enter (save_path +:+ "/" +:+ movie_name +:+ "."
                               +:+ movie_fileext)]
             ++ events ++ [saving_exit], calls, r)).
Proof.
  split; [intros; apply filetype_dict_lookup|]. split.
  - intros Hgif Hmp4. eexists. unfold animate_field_propagation.
    rewrite filetype_dict_unsupported by done.
    split; [reflexivity|]. split; [reflexivity|]. split; [reflexivity|].
    intros e He. repeat (apply elem_of_cons in He as [->|He]; [done|]).
    by apply elem_of_nil in He.
  - intros backend Hb. unfold animate_field_propagation. rewrite Hb.
    destruct (frame_loop _ _ _ _ _ _ _ _ _) as [[events calls] r].
    by exists events, calls, r.
Qed.

(** The tensor [plot_to_layer] builds for a layer inside the snapshot
    sequence: [fields.shape[0] - 1] columns, of which the first [layer]
    hold the snapshots 0 .. layer - 1 of the chosen input and the others
    are zero. *)
Lemma plot_to_layer_fields_spec (fields : np.ndarray3 complex)
    (input_to_propagate layer : Z) :
  0 <= layer < np.dim0 fields ->
  0 <= input_to_propagate < np.dim2 fields ->
  np.dim1 fields = np.dim2 fields ->
  exists shown,
    plot_to_layer_fields fields input_to_propagate layer = Ok shown
    /\ np.shape0 shown = np.dim1 fields
    /\ np.shape1 shown = np.dim0 fields - 1
    /\ forall port column,
         np.item2 shown port column
         = if column <? layer
           then np.item3 fields column port input_to_propagate
           else complex_zero.
Proof.
  intros Hlayer Hinp Hsquare.
  unfold plot_to_layer_fields, np.take_layers, np.zeros.
  rewrite axis_index_in_range by done.
  replace ((np.dim2 fields <? 0) || (np.dim0 fields - layer - 1 <? 0))
    with false
    by (symmetry; apply orb_false_iff; split; apply Z.ltb_ge; lia).
  rewrite !bind_Ok. unfold np.hstack, np.transpose, np.slice_stop.
  cbn [np.shape0 np.shape1 np.item2].
  rewrite Hsquare, Z.eqb_refl.
  replace (layer <? 0) with false by (symmetry; apply Z.ltb_ge; lia).
  rewrite Z.min_l by lia.
  eexists. split; [reflexivity|]. cbn [np.shape0 np.shape1 np.item2].
  split; [done|]. split; [lia|]. intros port column. reflexivity.
Qed.

Lemma frames_step (facecolors : list rgba) (events : list event) :
  frames (canvas_draw :: grab_frame facecolors :: events)
  = facecolors :: frames events.
Proof. reflexivity. Qed.

(** The loop over the layers: every layer visited so far has been handed
    to the renderer once, with replot set exactly for layer 0 and with the
    tensor of [plot_to_layer_fields]; a frame is grabbed after each render
    that returns, and when the loop completes there is one frame per
    layer. *)
Lemma frame_loop_calls (fields : np.ndarray3 complex)
    (theta phi : option (np.ndarray2 real))
    (gamma : option (np.ndarray1 real)) (input_to_propagate : Z)
    (layers : list Z) (ax : axes) (s : SimRMPhotonicModule)
    (calls0 calls : list render_call) (events : list event)
    (r : result (axes * SimRMPhotonicModule)) :
  frame_loop fields theta phi gamma input_to_propagate layers ax s calls0
  = (events, calls, r) ->
  exists new,
    calls = calls0 ++ new
    /\ call_layer <$> new `prefix_of` layers
    /\ Forall (fun c =>
         call_replot c = (call_layer c =? 0)
         /\ plot_to_layer_fields fields input_to_propagate (call_layer c)
            = Ok (call_fields c)) new
    /\ (length (frames events) <= length new)%nat
    /\ (forall out, r = Ok out ->
          call_layer <$> new = layers
          /\ length (frames events) = length layers).
Proof.
  revert ax s calls0 calls events r.
  induction layers as [|layer layers IH]; intros ax s calls0 calls events r.
  - cbn [frame_loop]. intros [= <- <- <-]. exists [].
    rewrite app_nil_r. repeat split; done.
  - cbn [frame_loop].
    destruct (plot_to_layer_fields fields input_to_propagate layer)
      as [shown|e] eqn:Hshown.
    + destruct (plot_field_propagation s ax shown theta phi gamma
                  (layer =? 0) None) as [[ax' s']|e] eqn:Hplot.
      * destruct (frame_loop fields theta phi gamma input_to_propagate
                    layers ax' s' _) as [[events' calls'] r'] eqn:Hrest.
        intros [= <- <- <-].
        destruct (IH _ _ _ _ _ _ Hrest)
          as (new & -> & Hprefix & Hall & Hframes & Hdone).
        eexists (_ :: new). rewrite <- app_assoc.
        split; [reflexivity|]. split.
        { cbn [fmap list_fmap call_layer]. by apply prefix_cons. }
        rewrite frames_step. cbn [length].
        split; [by constructor|]. split; [lia|].
        intros out Hout. destruct (Hdone out Hout) as [Hl Hf].
        split; [cbn; by rewrite <- Hl|lia].
      * intros [= <- <- <-]. eexists [_]. split; [reflexivity|]. split.
        { cbn [fmap list_fmap call_layer]. apply prefix_cons, prefix_nil. }
        split; [by repeat constructor|]. split; [cbn; lia|]. done.
    + intros [= <- <- <-]. exists []. rewrite app_nil_r.
      split; [done|]. split; [apply prefix_nil|].
      split; [constructor|]. split; [cbn; lia|]. done.
Qed.

End RendererProperties.

(** ** The example module *)

Lemma ex_new_eq : ex_new = Ok ex_st0.
Proof. reflexivity. Qed.

Lemma ex_built_eq : ex_built = Ok ([ax_configure; ax_add_collection], ex_st1).
Proof. reflexivity. Qed.




Lemma C7_container_extension_witness :
  "avi" <> "gif" /\ "avi" <> "mp4"
  /\ exists events,
       @animate_field_propagation toy ex_st0 "title" "out" "movie"
         ex_snapshots (Some ex_theta) (Some ex_phi) (Some ex_gamma) None None
         "avi"
       = (events, [], Raise Exception_)
       /\ frames events = [].
Proof.
  assert ("avi" <> "gif") as Hgif by discriminate.
  assert ("avi" <> "mp4") as Hmp4 by discriminate.
  repeat (split; [assumption|]).
  destruct (proj1 (proj2 (@C7_container_extension toy ex_st0 "title" "out"
              "movie" ex_snapshots (Some ex_theta) (Some ex_phi)
              (Some ex_gamma) None None "avi")) Hgif Hmp4)
    as (events & Hrun & _ & Hframes & _).
  exists events. split; assumption.
Defined.

(** C8 fails on the recolor branch.  After the initial full build of the
    example module, a replot = false call that omits [phase_shift_layer],
    [theta_checkerboard] or [phi_checkerboard] raises [TypeError], whereas
    the build branch skips the omitted arrays and an omitted [label_size]
    is harmless on both branches. *)
Theorem C8_omitted_arrays_raise_on_recolor :
  @plot_field_propagation toy ex_st1 [] ex_fields (Some ex_theta)
    (Some ex_phi) None false None = Raise TypeError
  /\ @plot_field_propagation toy ex_st1 [] ex_fields None (Some ex_phi)
       (Some ex_gamma) false None = Raise TypeError
  /\ @plot_field_propagation toy ex_st1 [] ex_fields (Some ex_theta) None
       (Some ex_gamma) false None = Raise TypeError
  /\ (exists st2,
        @plot_field_propagation toy ex_st1 [] ex_fields (Some ex_theta)
          (Some ex_phi) (Some ex_gamma) false None = Ok ([], st2))
  /\ (exists ax1 st1,
        @plot_field_propagation toy ex_st0 [] ex_fields None None None true
          None = Ok (ax1, st1)).
Proof.
  split; [reflexivity|]. split; [reflexivity|]. split; [reflexivity|].
  split; [eexists; vm_compute; reflexivity|].
  eexists _, _. vm_compute. reflexivity.
Qed.

(** C3 fails by one layer.  In the five-snapshot animation of the example
    module there are five renderer calls and five frames, with replot set
    for layer 0 only, but every call receives a tensor of 4 columns in
    which only the snapshots before [layer] are exposed: the first frame
    shows nothing of snapshot 0, and snapshot 4 is never shown. *)
Theorem C3_animation_exposes_layers_before :
  let run := @animate_field_propagation toy ex_st0 "title" "out" "movie"
               ex_snapshots (Some ex_theta) (Some ex_phi) (Some ex_gamma)
               None None "mp4" in
  length (frames run.1.1) = 5%nat
  /\ call_layer <$> run.1.2 = [0; 1; 2; 3; 4]
  /\ call_replot <$> run.1.2 = [true; false; false; false; false]
  /\ (fun c => (np.shape0 (call_fields c), np.shape1 (call_fields c)))
       <$> run.1.2 = [(2, 4); (2, 4); (2, 4); (2, 4); (2, 4)]
  /\ (fun c => np.item2 (call_fields c) 0 0) <$> run.1.2
     = [0; 101; 101; 101; 101]
  /\ (fun c => np.item2 (call_fields c) 0 3) <$> run.1.2
     = [0; 0; 0; 0; 401]
  /\ np.item3 ex_snapshots 0 0 1 = 101
  /\ np.item3 ex_snapshots 3 0 1 = 401
  /\ np.item3 ex_snapshots 4 0 1 = 501.
Proof. vm_compute. repeat split. Qed.

(** An animation of a single snapshot hands the renderer a tensor without
    columns; the first render raises and no frame is written. *)
Lemma one_snapshot_animation_raises :
  let run := @animate_field_propagation toy ex_st0 "title" "out" "movie"
               ex_one_snapshot (Some ex_theta) (Some ex_phi) (Some ex_gamma)
               None None "mp4" in
  run.2 = Raise IndexError
  /\ frames run.1.1 = []
  /\ (fun c => (np.shape0 (call_fields c), np.shape1 (call_fields c)))
       <$> run.1.2 = [(2, 0)].
Proof. vm_compute. repeat split. Qed.

(** With the optional arrays left at their defaults the animation stops
    at the second layer, after one frame. *)
Lemma default_arrays_animation_raises :
  let run := @animate_field_propagation toy ex_st0 "title" "out" "movie"
               ex_snapshots None None None None None "mp4" in
  run.2 = Raise TypeError
  /\ length (frames run.1.1) = 1%nat
  /\ call_layer <$> run.1.2 = [0; 1].
Proof. vm_compute. repeat split. Qed.

(** * Further properties *)

(** ** Counting and spacing of the mesh positions *)

Section MeshCount.

Lemma same_parity_succ_r (p l : Z) :
  same_parity p (l + 1) = negb (same_parity p l).
Proof.
  unfold same_parity. rewrite <- !Z.negb_odd, Z.odd_add. simpl.
  destruct (Z.odd p), (Z.odd l); reflexivity.
Qed.

Lemma same_parity_succ_l (p l : Z) :
  same_parity (p + 1) l = negb (same_parity p l).
Proof.
  unfold same_parity. rewrite <- !Z.negb_odd, Z.odd_add. simpl.
  destruct (Z.odd p), (Z.odd l); reflexivity.
Qed.

Lemma same_parity_zero (p : Z) : same_parity p 0 = Z.even p.
Proof.
  unfold same_parity. rewrite <- Z.negb_even. simpl.
  by destruct (Z.even p).
Qed.

Lemma range_succ (k : nat) :
  range (Z.of_nat (S k)) = range (Z.of_nat k) ++ [Z.of_nat k].
Proof. unfold range. by rewrite seqZ_S. Qed.

(** The same-parity cells of one row. *)
Lemma row_count (p : Z) (c : nat) :
  Z.of_nat (length (filter (fun l => same_parity p l = true)
                      (range (Z.of_nat c))))
  = if Z.even p then (Z.of_nat c + 1) / 2 else Z.of_nat c / 2.
Proof.
  induction c as [|c IH].
  - simpl. by destruct (Z.even p).
  - rewrite range_succ, filter_app, length_app, Nat2Z.inj_add, IH.
    rewrite filter_cons, filter_nil.
    assert (same_parity p (Z.of_nat c)
            = if Z.even p then Z.even (Z.of_nat c)
              else negb (Z.even (Z.of_nat c))) as Hpar.
    { unfold same_parity. rewrite <- !Z.negb_even.
      destruct (Z.even p), (Z.even (Z.of_nat c)); reflexivity. }
    destruct (Z.even (Z.of_nat c)) eqn:Hc;
      rewrite Zeven_mod in Hc;
      [apply Z.eqb_eq in Hc|apply Z.eqb_neq in Hc];
      destruct (Z.even p); rewrite Hpar;
      [rewrite decide_True by done|rewrite decide_False by done
      |rewrite decide_False by done|rewrite decide_True by done];
      simpl length; Z.div_mod_to_equations; lia.
Qed.

Lemma row_cells_count (p : Z) (c : nat) :
  Z.of_nat (length (filter (fun cell : Z * Z =>
                              same_parity cell.1 cell.2 = true)
                      (l ← range (Z.of_nat c); [(p, l)])))
  = if Z.even p then (Z.of_nat c + 1) / 2 else Z.of_nat c / 2.
Proof.
  rewrite <- row_count. f_equal.
  induction (range (Z.of_nat c)) as [|l ls IH]; [done|].
  rewrite bind_cons, filter_app, length_app, IH, filter_cons.
  simpl. rewrite filter_cons, filter_nil. simpl.
  destruct (decide (same_parity p l = true)); reflexivity.
Qed.

Lemma bind_singleton {A B} (f : A -> list B) (x : A) : [x] ≫= f = f x.
Proof. simpl. by rewrite app_nil_r. Qed.

Lemma grid_count (r c : nat) :
  Z.of_nat (length (validPositions_spec (Z.of_nat r + 1) (Z.of_nat c)))
  = checkerboard_count (Z.of_nat r) (Z.of_nat c).
Proof.
  unfold validPositions_spec, grid_cells, checkerboard_count.
  replace (Z.of_nat r + 1 - 1) with (Z.of_nat r) by lia.
  induction r as [|r IH].
  - reflexivity.
  - rewrite range_succ, bind_app, filter_app, length_app, Nat2Z.inj_add, IH.
    rewrite bind_singleton, row_cells_count.
    generalize ((Z.of_nat c + 1) / 2) (Z.of_nat c / 2). intros a b.
    destruct (Z.even (Z.of_nat r)) eqn:Hr;
      rewrite Zeven_mod in Hr;
      [apply Z.eqb_eq in Hr|apply Z.eqb_neq in Hr].
    + replace ((Z.of_nat (S r) + 1) / 2) with ((Z.of_nat r + 1) / 2 + 1)
        by (Z.div_mod_to_equations; lia).
      replace (Z.of_nat (S r) / 2) with (Z.of_nat r / 2)
        by (Z.div_mod_to_equations; lia).
      lia.
    + replace ((Z.of_nat (S r) + 1) / 2) with ((Z.of_nat r + 1) / 2)
        by (Z.div_mod_to_equations; lia).
      replace (Z.of_nat (S r) / 2) with (Z.of_nat r / 2 + 1)
        by (Z.div_mod_to_equations; lia).
      lia.
Qed.

Lemma square_count (n : Z) :
  1 <= n -> checkerboard_count (n - 1) n = n * (n - 1) / 2.
Proof.
  intros Hn. unfold checkerboard_count.
  assert (exists k, n = 2 * k \/ n = 2 * k + 1) as [k [-> | ->]].
  { exists (n / 2). Z.div_mod_to_equations. lia. }
  - replace ((2 * k - 1 + 1) / 2) with k by (Z.div_mod_to_equations; lia).
    replace ((2 * k + 1) / 2) with k by (Z.div_mod_to_equations; lia).
    replace ((2 * k - 1) / 2) with (k - 1) by (Z.div_mod_to_equations; lia).
    replace (2 * k / 2) with k by (Z.div_mod_to_equations; lia).
    replace (2 * k * (2 * k - 1)) with ((k * (2 * k - 1)) * 2) by lia.
    rewrite Z.div_mul by lia. lia.
  - replace ((2 * k + 1 - 1 + 1) / 2) with k by (Z.div_mod_to_equations; lia).
    replace ((2 * k + 1 + 1) / 2) with (k + 1)
      by (Z.div_mod_to_equations; lia).
    replace ((2 * k + 1 - 1) / 2) with k by (Z.div_mod_to_equations; lia).
    replace ((2 * k + 1) / 2) with k by (Z.div_mod_to_equations; lia).
    replace ((2 * k + 1) * (2 * k + 1 - 1)) with ((k * (2 * k + 1)) * 2) by lia.
    rewrite Z.div_mul by lia. lia.
Qed.

(** X1. For num_ports >= 1 and depth >= 0 the two index arrays returned by
    [_get_rectangular_mesh_points] have the same length
    ceil(r/2) * ceil(depth/2) + floor(r/2) * floor(depth/2) with
    r = num_ports - 1; for a square mesh (depth = num_ports = N) this is
    N (N - 1) / 2. *)
Theorem X1_mesh_points_count (num_ports depth : Z) :
  1 <= num_ports -> 0 <= depth ->
  exists ps ls,
    _get_rectangular_mesh_points num_ports depth = Ok (ps, ls)
    /\ Z.of_nat (length ps) = checkerboard_count (num_ports - 1) depth
    /\ Z.of_nat (length ls) = checkerboard_count (num_ports - 1) depth
    /\ (depth = num_ports ->
        Z.of_nat (length ps) = num_ports * (num_ports - 1) / 2).
Proof.
  intros Hp Hd. eexists _, _. split; [by apply mesh_points_ok|].
  rewrite !length_fmap.
  assert (Z.of_nat (length (validPositions_spec num_ports depth))
          = checkerboard_count (num_ports - 1) depth) as Hcount.
  { pose proof (grid_count (Z.to_nat (num_ports - 1)) (Z.to_nat depth)) as Hg.
    rewrite !Z2Nat.id in Hg by lia.
    by replace (num_ports - 1 + 1) with num_ports in Hg by lia. }
  split; [done|]. split; [done|].
  intros ->. rewrite Hcount. by apply square_count.
Qed.

Lemma X1_mesh_points_count_witness :
  exists ps ls,
    _get_rectangular_mesh_points 5 5 = Ok (ps, ls)
    /\ Z.of_nat (length ps) = checkerboard_count (5 - 1) 5
    /\ Z.of_nat (length ls) = checkerboard_count (5 - 1) 5
    /\ (5 = 5 -> Z.of_nat (length ps) = 5 * (5 - 1) / 2).
Proof. apply (X1_mesh_points_count 5 5); lia. Defined.

Lemma valid_mesh_points_Ok (num_ports depth : Z) (points : list (Z * Z)) :
  valid_mesh_points_of num_ports depth = Ok points ->
  1 <= num_ports /\ 0 <= depth
  /\ points = validPositions_spec num_ports depth.
Proof.
  intros Hok. unfold valid_mesh_points_of in Hok.
  destruct (Z.le_gt_cases 1 num_ports) as [Hp|Hp];
    [destruct (Z.le_gt_cases 0 depth) as [Hd|Hd]|].
  - rewrite mesh_points_ok, bind_Ok, zip_fst_snd in Hok by done.
    by injection Hok as <-.
  - by rewrite mesh_points_negative in Hok by lia.
  - by rewrite mesh_points_negative in Hok by lia.
Qed.

(** X2. Whenever the valid mesh positions are computed, no position has
    an active neighbour on the next port of the same layer or on the next
    layer of the same port (two MZIs of one layer never share a
    waveguide), and no position is listed twice. *)
Theorem X2_mesh_points_spacing (num_ports depth : Z)
    (points : list (Z * Z)) :
  valid_mesh_points_of num_ports depth = Ok points ->
  NoDup points
  /\ forall p l, (p, l) ∈ points ->
       (p + 1, l) ∉ points /\ (p, l + 1) ∉ points
       /\ (p - 1, l) ∉ points /\ (p, l - 1) ∉ points.
Proof.
  intros Hok. apply valid_mesh_points_Ok in Hok as (Hp & Hd & ->). split.
  - apply NoDup_filter. unfold grid_cells, range.
    apply NoDup_bind.
    + intros p1 p2 [p l] _ _ H1 H2.
      apply list_elem_of_bind in H1 as (l1 & H1 & _).
      apply list_elem_of_bind in H2 as (l2 & H2 & _).
      apply list_elem_of_singleton in H1, H2. congruence.
    + intros p _. apply NoDup_bind.
      * intros l1 l2 c _ _ H1 H2. apply list_elem_of_singleton in H1, H2.
        congruence.
      * intros l _. apply NoDup_singleton.
      * apply NoDup_seqZ.
    + apply NoDup_seqZ.
  - intros p l Hin. apply validPositions_spec_elem in Hin as (_ & _ & Hpar).
    rewrite !validPositions_spec_elem.
    pose proof (same_parity_succ_l p l) as H1.
    pose proof (same_parity_succ_r p l) as H2.
    pose proof (same_parity_succ_l (p - 1) l) as H3.
    pose proof (same_parity_succ_r p (l - 1)) as H4.
    replace (p - 1 + 1) with p in H3 by lia.
    replace (l - 1 + 1) with l in H4 by lia.
    rewrite Hpar in *.
    destruct (same_parity (p - 1) l), (same_parity p (l - 1));
      simpl in *; try discriminate.
    repeat split; intros (_ & _ & Hc); congruence.
Qed.

Lemma X2_mesh_points_spacing_witness :
  valid_mesh_points_of 4 4 = Ok [(0, 0); (0, 2); (1, 1); (1, 3); (2, 0); (2, 2)]
  /\ NoDup [(0, 0); (0, 2); (1, 1); (1, 3); (2, 0); (2, 2)]
  /\ forall p l, (p, l) ∈ [(0, 0); (0, 2); (1, 1); (1, 3); (2, 0); (2, 2)] ->
       (p + 1, l) ∉ [(0, 0); (0, 2); (1, 1); (1, 3); (2, 0); (2, 2)]
       /\ (p, l + 1) ∉ [(0, 0); (0, 2); (1, 1); (1, 3); (2, 0); (2, 2)]
       /\ (p - 1, l) ∉ [(0, 0); (0, 2); (1, 1); (1, 3); (2, 0); (2, 2)]
       /\ (p, l - 1) ∉ [(0, 0); (0, 2); (1, 1); (1, 3); (2, 0); (2, 2)].
Proof.
  assert (valid_mesh_points_of 4 4
          = Ok [(0, 0); (0, 2); (1, 1); (1, 3); (2, 0); (2, 2)]) as Hrun
    by reflexivity.
  split; [exact Hrun|]. exact (X2_mesh_points_spacing 4 4 _ Hrun).
Defined.

End MeshCount.

(** ** plotting/helpers.py *)

Section HelperPoints.

Lemma get_checkerboard_points_eq (dim rank : Z) :
  get_checkerboard_points dim rank = _get_rectangular_mesh_points dim rank.
Proof. reflexivity. Qed.

(** X3. [get_checkerboard_points(dim, rank)] of the plotting helpers
    raises [ValueError] when dim < 1 or rank < 0 and otherwise returns the
    row and column indices of exactly the same-parity cells of the
    (dim - 1) x rank grid; for rank = dim, as the label functions call it,
    these are dim (dim - 1) / 2 points. *)
Theorem X3_checkerboard_points (dim rank : Z) :
  (dim < 1 \/ rank < 0 -> get_checkerboard_points dim rank = Raise ValueError)
  /\ (1 <= dim -> 0 <= rank ->
      exists points,
        get_checkerboard_points dim rank = Ok (points.*1, points.*2)
        /\ (forall p l, (p, l) ∈ points
              <-> 0 <= p < dim - 1 /\ 0 <= l < rank
                  /\ same_parity p l = true)
        /\ StronglySorted cell_lt points
        /\ (rank = dim ->
            Z.of_nat (length points) = dim * (dim - 1) / 2)).
Proof.
  rewrite get_checkerboard_points_eq. split.
  - apply mesh_points_negative.
  - intros Hd Hr. exists (validPositions_spec dim rank).
    split; [by apply mesh_points_ok|].
    split; [apply validPositions_spec_elem|].
    split; [apply filter_sorted, grid_cells_sorted|].
    intros ->.
    pose proof (grid_count (Z.to_nat (dim - 1)) (Z.to_nat dim)) as Hg.
    rewrite !Z2Nat.id in Hg by lia.
    replace (dim - 1 + 1) with dim in Hg by lia.
    rewrite Hg. by apply square_count.
Qed.

Lemma X3_checkerboard_points_witness :
  (3 < 1 \/ 3 < 0 -> get_checkerboard_points 3 3 = Raise ValueError)
  /\ exists points,
       get_checkerboard_points 3 3 = Ok (points.*1, points.*2)
       /\ (forall p l, (p, l) ∈ points
             <-> 0 <= p < 3 - 1 /\ 0 <= l < 3 /\ same_parity p l = true)
       /\ StronglySorted cell_lt points
       /\ (3 = 3 -> Z.of_nat (length points) = 3 * (3 - 1) / 2).
Proof.
  split; [apply (proj1 (X3_checkerboard_points 3 3))|].
  apply (proj2 (X3_checkerboard_points 3 3)); lia.
Defined.

Lemma bind_cells_ext {B} (F G : Z -> Z -> list B) (xs ys : list Z) :
  (forall i j, i ∈ xs -> j ∈ ys -> F i j = G i j) ->
  (i ← xs; j ← ys; F i j) = (i ← xs; j ← ys; G i j).
Proof.
  intros HFG. induction xs as [|x xs IH]; [done|].
  rewrite !bind_cons, IH by (intros; apply HFG; set_solver). f_equal.
  assert (forall j, j ∈ ys -> F x j = G x j) as Hx
    by (intros; apply HFG; set_solver).
  clear IH HFG. induction ys as [|y ys IH]; [done|].
  rewrite !bind_cons, IH by (intros; apply Hx; set_solver).
  by rewrite (Hx y) by set_solver.
Qed.

Lemma broadcast_dim_same (m n : Z) : m = n -> broadcast_dim m n = Ok m.
Proof. intros ->. unfold broadcast_dim. by rewrite Z.eqb_refl. Qed.

(** Masking a checkerboard with the triangle leaves non-zero exactly the
    same-parity cells of the triangle. *)
Lemma masked_nonzero (dim : Z) (checkerboard : np.ndarray2 Z) :
  1 <= dim ->
  np.shape0 checkerboard = dim - 1 ->
  np.shape1 checkerboard = dim * 2 ->
  (forall i j, 0 <= i -> 0 <= j ->
     (np.item2 checkerboard i j =? 1) = same_parity i j) ->
  (left ← np_ones (dim - 1) dim;
   right ← np_ones (dim - 1) dim;
   triangular_mask ← np.hstack (np_fliplr (np_tril left)) (np_tril right);
   masked ← np_eq_times checkerboard 1 triangular_mask;
   Ok (np_nonzero masked))
  = Ok ((triangular_points_spec dim).*1, (triangular_points_spec dim).*2).
Proof.
  intros Hd Hs0 Hs1 Hitem. destruct checkerboard as [s0 s1 item].
  cbn [np.shape0 np.shape1 np.item2] in *. subst s0 s1.
  unfold np_ones.
  replace ((dim - 1 <? 0) || (dim <? 0)) with false
    by (symmetry; apply orb_false_iff; split; apply Z.ltb_ge; lia).
  rewrite !bind_Ok. unfold np.hstack.
  cbn [np.shape0 np.shape1 np.item2 np_fliplr np_tril].
  rewrite Z.eqb_refl. cbv iota. rewrite bind_Ok. unfold np_eq_times.
  cbn [np.shape0 np.shape1 np.item2].
  rewrite (broadcast_dim_same (dim - 1)) by done.
  rewrite (broadcast_dim_same (dim * 2)) by lia.
  rewrite !bind_Ok. unfold np_nonzero. cbn [np.shape0 np.shape1 np.item2].
  unfold triangular_points_spec, grid_cells.
  rewrite <- (bind_filter_cells
    (fun i j => same_parity i j && in_triangle dim i j)
    (fun i j => same_parity i j && in_triangle dim i j)) by done.
  assert (forall i j, i ∈ range (dim - 1) -> j ∈ range (dim * 2) ->
    (if (if item (if dim - 1 =? 1 then 0 else i)
                 (if dim * 2 =? 1 then 0 else j) =? 1 then 1 else 0)
        * (if (if dim + dim =? 1 then 0 else j) <? dim
           then if dim - 1 - (if dim + dim =? 1 then 0 else j)
                   <=? (if dim - 1 =? 1 then 0 else i) then 1 else 0
           else if (if dim + dim =? 1 then 0 else j) - dim
                   <=? (if dim - 1 =? 1 then 0 else i) then 1 else 0) =? 0
     then [] else [(i, j)])
    = (if same_parity i j && in_triangle dim i j then [(i, j)] else []))
    as Hcell.
  { intros i j Hi Hj. apply range_elem in Hi. apply range_elem in Hj.
    replace (if dim - 1 =? 1 then 0 else i) with i
      by (destruct (Z.eqb_spec (dim - 1) 1); lia).
    replace (if dim * 2 =? 1 then 0 else j) with j
      by (destruct (Z.eqb_spec (dim * 2) 1); lia).
    replace (if dim + dim =? 1 then 0 else j) with j
      by (destruct (Z.eqb_spec (dim + dim) 1); lia).
    rewrite Hitem by lia. unfold in_triangle.
    destruct (same_parity i j); cbn [andb]; [|reflexivity].
    destruct (Z.ltb_spec j dim), (Z.leb_spec (dim - 1 - i) j),
      (Z.leb_spec j (dim + i)); cbn [andb];
      repeat match goal with
      | |- context [?a <=? ?b] => destruct (Z.leb_spec a b)
      end; simpl; try reflexivity; lia. }
  f_equal. f_equal; f_equal; by apply bind_cells_ext.
Qed.

Lemma triangular_points_ok (dim : Z) :
  1 <= dim ->
  get_triangular_mesh_points dim
  = Ok ((triangular_points_spec dim).*1, (triangular_points_spec dim).*2).
Proof.
  intros Hd. unfold get_triangular_mesh_points, np.zeros.
  replace ((dim - 1 <? 0) || (dim * 2 <? 0)) with false
    by (symmetry; apply orb_false_iff; split; apply Z.ltb_ge; lia).
  rewrite bind_Ok. cbv zeta. apply masked_nonzero; try done.
  intros i j Hi Hj. by apply checkerboard_item.
Qed.

Lemma triangular_points_elem (dim i j : Z) :
  1 <= dim ->
  (i, j) ∈ triangular_points_spec dim
  <-> 0 <= i < dim - 1 /\ dim - 1 - i <= j <= dim + i
      /\ same_parity i j = true.
Proof.
  intros Hd. unfold triangular_points_spec.
  rewrite list_elem_of_filter. cbn [fst snd].
  rewrite andb_true_iff. unfold in_triangle.
  rewrite andb_true_iff, !Z.leb_le. split.
  - intros ((Hpar & Hlo & Hhi) & Hin).
    unfold grid_cells in Hin. apply list_elem_of_bind in Hin as (p & Hin & Hp).
    apply list_elem_of_bind in Hin as (l & Hin & Hl).
    apply list_elem_of_singleton in Hin. injection Hin as -> ->.
    apply range_elem in Hp. repeat split; try done; lia.
  - intros (Hi & Hj & Hpar). split; [done|].
    unfold grid_cells. apply list_elem_of_bind. exists i. split.
    + apply list_elem_of_bind. exists j. split; [set_solver|].
      apply range_elem. lia.
    + apply range_elem. lia.
Qed.

(** Among [2 m] consecutive integers, [m] have the parity of [i]. *)
Lemma parity_count_even_run (i a : Z) (m : nat) :
  length (filter (fun j => same_parity i j = true)
            (seqZ a (2 * Z.of_nat m))) = m.
Proof.
  induction m as [|m IH]; [done|].
  replace (2 * Z.of_nat (S m)) with (2 * Z.of_nat m + 2) by lia.
  rewrite seqZ_app, filter_app, length_app, IH by lia.
  rewrite (seqZ_cons _ 2) by lia. rewrite (seqZ_cons _ (Z.pred 2)) by lia.
  rewrite seqZ_nil by lia. rewrite !filter_cons, filter_nil.
  pose proof (same_parity_succ_r i (a + 2 * Z.of_nat m)) as Hs.
  replace (Z.succ (a + 2 * Z.of_nat m)) with (a + 2 * Z.of_nat m + 1) by lia.
  rewrite Hs.
  destruct (same_parity i (a + 2 * Z.of_nat m)); simpl;
    repeat case_decide; try done; simpl; lia.
Qed.

(** The points of row [i] of the triangle. *)
Lemma triangle_row_count (dim : Z) (i : nat) :
  Z.of_nat i < dim - 1 ->
  length (filter (fun c : Z * Z =>
                    same_parity c.1 c.2 && in_triangle dim c.1 c.2 = true)
            (l ← range (dim * 2); [(Z.of_nat i, l)])) = S i.
Proof.
  intros Hi. unfold range.
  replace (dim * 2)
    with ((dim - 1 - Z.of_nat i) + (2 * Z.of_nat (S i)
          + (dim - Z.of_nat i - 1))) by lia.
  rewrite !seqZ_app by lia. rewrite !bind_app, !filter_app, !length_app.
  assert (forall ls : list Z,
    (forall l, l ∈ ls -> in_triangle dim (Z.of_nat i) l = false) ->
    length (filter (fun c : Z * Z =>
                      same_parity c.1 c.2 && in_triangle dim c.1 c.2 = true)
              (l ← ls; [(Z.of_nat i, l)])) = 0%nat) as Hout.
  { intros ls Hls. induction ls as [|l ls IH]; [done|].
    rewrite bind_cons, filter_app, length_app, IH by (intros; apply Hls; set_solver).
    simpl. rewrite filter_cons, filter_nil. simpl.
    rewrite (Hls l) by set_solver. rewrite andb_false_r.
    by rewrite decide_False by done. }
  assert (forall ls : list Z,
    (forall l, l ∈ ls -> in_triangle dim (Z.of_nat i) l = true) ->
    length (filter (fun c : Z * Z =>
                      same_parity c.1 c.2 && in_triangle dim c.1 c.2 = true)
              (l ← ls; [(Z.of_nat i, l)]))
    = length (filter (fun j => same_parity (Z.of_nat i) j = true) ls)) as Hin.
  { intros ls Hls. induction ls as [|l ls IH]; [done|].
    rewrite bind_cons, filter_app, length_app, IH by (intros; apply Hls; set_solver).
    simpl. rewrite !filter_cons, filter_nil. simpl.
    rewrite (Hls l) by set_solver. rewrite andb_true_r.
    destruct (same_parity (Z.of_nat i) l); simpl; repeat case_decide;
      done. }
  rewrite Hout, Hin, Hout; [rewrite parity_count_even_run; lia| | |].
  - intros l Hl. apply elem_of_seqZ in Hl. unfold in_triangle.
    apply andb_false_iff. right. apply Z.leb_gt. lia.
  - intros l Hl. apply elem_of_seqZ in Hl. unfold in_triangle.
    apply andb_true_iff. split; apply Z.leb_le; lia.
  - intros l Hl. apply elem_of_seqZ in Hl. unfold in_triangle.
    apply andb_false_iff. left. apply Z.leb_gt. lia.
Qed.

Lemma triangle_rows_count (dim : Z) (r : nat) :
  Z.of_nat r <= dim - 1 ->
  2 * Z.of_nat (length (filter (fun c : Z * Z =>
                    same_parity c.1 c.2 && in_triangle dim c.1 c.2 = true)
            (i ← range (Z.of_nat r); l ← range (dim * 2); [(i, l)])))
  = Z.of_nat r * (Z.of_nat r + 1).
Proof.
  induction r as [|r IH]; intros Hr; [done|].
  rewrite range_succ, bind_app, filter_app, length_app, bind_singleton.
  rewrite triangle_row_count by lia. rewrite Nat2Z.inj_add.
  specialize (IH ltac:(lia)). nia.
Qed.

(** X4. For dim >= 1 [get_triangular_mesh_points(dim)] returns the row
    and column indices of exactly the cells (i, j) with 0 <= i < dim - 1,
    dim - 1 - i <= j <= dim + i and i, j of the same parity, in row-major
    order; there are dim (dim - 1) / 2 of them, as many as the rectangular
    mesh of the same size has. *)
Theorem X4_triangular_mesh_points (dim : Z) :
  1 <= dim ->
  exists points,
    get_triangular_mesh_points dim = Ok (points.*1, points.*2)
    /\ (forall i j, (i, j) ∈ points
          <-> 0 <= i < dim - 1 /\ dim - 1 - i <= j <= dim + i
              /\ same_parity i j = true)
    /\ StronglySorted cell_lt points
    /\ Z.of_nat (length points) = dim * (dim - 1) / 2
    /\ length points = length (validPositions_spec dim dim).
Proof.
  intros Hd. exists (triangular_points_spec dim).
  split; [by apply triangular_points_ok|].
  split; [intros; by apply triangular_points_elem|].
  split; [apply filter_sorted, grid_cells_sorted|].
  assert (Z.of_nat (length (triangular_points_spec dim))
          = dim * (dim - 1) / 2) as Hcount.
  { pose proof (triangle_rows_count dim (Z.to_nat (dim - 1))) as Hrows.
    rewrite Z2Nat.id in Hrows by lia. specialize (Hrows ltac:(lia)).
    unfold triangular_points_spec, grid_cells.
    replace (dim - 1 + 1) with dim in Hrows by lia.
    apply Z.div_unique_exact; lia. }
  split; [done|].
  apply Nat2Z.inj. rewrite Hcount.
  pose proof (grid_count (Z.to_nat (dim - 1)) (Z.to_nat dim)) as Hg.
  rewrite !Z2Nat.id in Hg by lia.
  replace (dim - 1 + 1) with dim in Hg by lia.
  rewrite Hg. symmetry. by apply square_count.
Qed.

Lemma X4_triangular_mesh_points_witness :
  exists points,
    get_triangular_mesh_points 3 = Ok (points.*1, points.*2)
    /\ (forall i j, (i, j) ∈ points
          <-> 0 <= i < 3 - 1 /\ 3 - 1 - i <= j <= 3 + i
              /\ same_parity i j = true)
    /\ StronglySorted cell_lt points
    /\ Z.of_nat (length points) = 3 * (3 - 1) / 2
    /\ length points = length (validPositions_spec 3 3).
Proof. apply (X4_triangular_mesh_points 3). lia. Defined.

(** X5. [get_triangular_mesh_points(dim)] raises [ValueError] for
    dim < 1 (the checkerboard would have a negative number of rows), and
    for dim = 1 it returns no point. *)
Theorem X5_triangular_mesh_points_degenerate (dim : Z) :
  (dim < 1 -> get_triangular_mesh_points dim = Raise ValueError)
  /\ (dim = 1 -> get_triangular_mesh_points dim = Ok ([], [])).
Proof.
  split.
  - intros Hd. unfold get_triangular_mesh_points, np.zeros.
    replace (dim - 1 <? 0) with true by (symmetry; apply Z.ltb_lt; lia).
    reflexivity.
  - intros ->. reflexivity.
Qed.

Lemma X5_triangular_mesh_points_degenerate_witness :
  get_triangular_mesh_points 0 = Raise ValueError
  /\ get_triangular_mesh_points 1 = Ok ([], []).
Proof.
  split.
  - apply (proj1 (X5_triangular_mesh_points_degenerate 0)). lia.
  - apply (proj2 (X5_triangular_mesh_points_degenerate 1)). reflexivity.
Defined.

End HelperPoints.

(** ** More on the polygon index mapper *)

Ltac band_cases :=
  repeat match goal with
  | |- context [?a =? ?b] => destruct (Z.eqb_spec a b)
  | |- context [?a <=? ?b] => destruct (Z.leb_spec a b)
  | H : context [?a =? ?b] |- _ => destruct (Z.eqb_spec a b)
  | H : context [?a <=? ?b] |- _ => destruct (Z.leb_spec a b)
  end; simpl in *; try lia.

Section LayerMapperMore.

(** X6. Along the polygons of a path the sub-layer number never skips a
    value: from one polygon index >= 0 to the next it stays or grows by
    one, every sub-layer >= 0 is the image of some polygon index >= 0, and
    it grows two fifths as fast as the index:
    2 i - 7 <= 5 * sub-layer(i) <= 2 i. *)
Theorem X6_sublayer_steps :
  (forall i, 0 <= i ->
     _mzi_poly_idx_to_layer_num (i + 1) = _mzi_poly_idx_to_layer_num i
     \/ _mzi_poly_idx_to_layer_num (i + 1) = _mzi_poly_idx_to_layer_num i + 1)
  /\ (forall layer, 0 <= layer ->
        exists i, 0 <= i /\ _mzi_poly_idx_to_layer_num i = layer)
  /\ (forall i, 0 <= i ->
        2 * i - 7 <= 5 * _mzi_poly_idx_to_layer_num i <= 2 * i).
Proof.
  split; [|split].
  - intros i Hi. destruct (Z.eq_dec i 0) as [-> | Hne]; [by left|].
    destruct (layer_num_unfold i) as (q & r & Heq & Hb & _ & _ & ->); [done|].
    destruct (layer_num_unfold (i + 1))
      as (q' & r' & Heq' & Hb' & _ & _ & ->); [lia|].
    band_cases.
  - intros layer Hl.
    destruct (Z.eq_dec layer 0) as [-> | Hne]; [by exists 0|].
    assert (exists u k, 0 <= u /\ 1 <= k <= 4 /\ layer = 4 * u + k)
      as (u & k & Hu & Hk & ->).
    { exists ((layer - 1) / 4), ((layer - 1) mod 4 + 1).
      Z.div_mod_to_equations. lia. }
    exists (10 * u + (if k =? 1 then 4 else if k =? 2 then 7
                      else if k =? 3 then 8 else 11)).
    split; [band_cases|].
    destruct (layer_num_unfold
                (10 * u + (if k =? 1 then 4 else if k =? 2 then 7
                           else if k =? 3 then 8 else 11)))
      as (q & r & Heq & Hb & _ & _ & ->); [band_cases|].
    band_cases.
  - intros i Hi. destruct (Z.eq_dec i 0) as [-> | Hne];
      [change (_mzi_poly_idx_to_layer_num 0) with 0; lia|].
    destruct (layer_num_unfold i) as (q & r & Heq & Hb & _ & _ & ->); [done|].
    band_cases.
Qed.

Lemma X6_sublayer_steps_witness :
  (_mzi_poly_idx_to_layer_num (13 + 1) = _mzi_poly_idx_to_layer_num 13
   \/ _mzi_poly_idx_to_layer_num (13 + 1) = _mzi_poly_idx_to_layer_num 13 + 1)
  /\ (exists i, 0 <= i /\ _mzi_poly_idx_to_layer_num i = 6)
  /\ 2 * 13 - 7 <= 5 * _mzi_poly_idx_to_layer_num 13 <= 2 * 13.
Proof.
  destruct X6_sublayer_steps as (Hstep & Honto & Hrate).
  split; [apply Hstep; lia|]. split; [apply Honto; lia|apply Hrate; lia].
Defined.

(** X7. Ten polygons further along a path the sub-layer is four higher:
    for every index >= 1 the mapper satisfies
    sub-layer(i + 10) = sub-layer(i) + 4 (index 0 is the exception:
    sub-layer(10) = 3). *)
Theorem X7_sublayer_period (i : Z) :
  1 <= i ->
  _mzi_poly_idx_to_layer_num (i + 10) = _mzi_poly_idx_to_layer_num i + 4.
Proof.
  intros Hi.
  destruct (layer_num_unfold i) as (q & r & Heq & Hb & _ & _ & ->); [lia|].
  destruct (layer_num_unfold (i + 10))
    as (q' & r' & Heq' & Hb' & _ & _ & ->); [lia|].
  band_cases.
Qed.

Lemma X7_sublayer_period_witness :
  _mzi_poly_idx_to_layer_num (7 + 10) = _mzi_poly_idx_to_layer_num 7 + 4
  /\ _mzi_poly_idx_to_layer_num (0 + 10) = 3.
Proof. split; [apply (X7_sublayer_period 7); lia|reflexivity]. Defined.

End LayerMapperMore.

Section ClampMore.

Context `{Collaborators}.

Lemma clamped_layer_min (fields : np.ndarray2 complex) (wvg_poly_idx : Z) :
  clamped_layer fields wvg_poly_idx
  = Z.min (_mzi_poly_idx_to_layer_num wvg_poly_idx) (np.shape1 fields - 1).
Proof.
  unfold clamped_layer.
  destruct (Z.gtb_spec (_mzi_poly_idx_to_layer_num wvg_poly_idx)
              (np.shape1 fields - 1)); lia.
Qed.

(** X8. The clamped sub-layer is non-decreasing along a path, and a path
    of [n] polygons is read without any clamping exactly when the field
    tensor has more than sub-layer(n - 1) columns. *)
Theorem X8_clamp_threshold (fields : np.ndarray2 complex) (n : Z) :
  0 < n ->
  (forall i j, 0 <= i <= j ->
     clamped_layer fields i <= clamped_layer fields j)
  /\ ((forall i, 0 <= i < n ->
         clamped_layer fields i = _mzi_poly_idx_to_layer_num i)
      <-> _mzi_poly_idx_to_layer_num (n - 1) < np.shape1 fields).
Proof.
  intros Hn. split.
  - intros i j Hij. rewrite !clamped_layer_min.
    pose proof (layer_num_mono i j Hij). lia.
  - split.
    + intros Hall. specialize (Hall (n - 1) ltac:(lia)).
      rewrite clamped_layer_min in Hall. lia.
    + intros Hlast i Hi. rewrite clamped_layer_min.
      pose proof (layer_num_mono i (n - 1) ltac:(lia)). lia.
Qed.

End ClampMore.

Lemma X8_clamp_threshold_witness :
  (forall i j, 0 <= i <= j ->
     @clamped_layer toy ex_fields i <= @clamped_layer toy ex_fields j)
  /\ ((forall i, 0 <= i < 7 ->
         @clamped_layer toy ex_fields i = _mzi_poly_idx_to_layer_num i)
      <-> _mzi_poly_idx_to_layer_num (7 - 1) < np.shape1 ex_fields).
Proof. apply (@X8_clamp_threshold toy ex_fields 7). lia. Defined.

Section LayerColor.

Context `{Collaborators}.
Variable BEAMSPLITTER_COLOR : rgb.

(** X9. The role colours repeat with period 10 from polygon index 3 on:
    indices 0, 1, 2 are gamma, index 3 is beam splitter, and every unit of
    ten polygons starting at index 4 + 10 u reads beam splitter (2), theta
    (1), beam splitter (3), phi (3), beam splitter (1). *)
Theorem X9_layer_color_pattern :
  _mzi_poly_idx_to_layer_color BEAMSPLITTER_COLOR <$> range 4
  = [GAMMA_COLOR; GAMMA_COLOR; GAMMA_COLOR; BEAMSPLITTER_COLOR]
  /\ (forall i, 3 <= i ->
        _mzi_poly_idx_to_layer_color BEAMSPLITTER_COLOR (i + 10)
        = _mzi_poly_idx_to_layer_color BEAMSPLITTER_COLOR i)
  /\ (forall u, 0 <= u ->
        _mzi_poly_idx_to_layer_color BEAMSPLITTER_COLOR
          <$> seqZ (4 + 10 * u) 10
        = [BEAMSPLITTER_COLOR; BEAMSPLITTER_COLOR; THETA_COLOR;
           BEAMSPLITTER_COLOR; BEAMSPLITTER_COLOR; BEAMSPLITTER_COLOR;
           PHI_COLOR; PHI_COLOR; PHI_COLOR; BEAMSPLITTER_COLOR]).
Proof.
  assert (forall u k, 0 <= u -> 0 <= k < 10 ->
            _mzi_poly_idx_to_layer_color BEAMSPLITTER_COLOR (4 + 10 * u + k)
            = if k <=? 1 then BEAMSPLITTER_COLOR
              else if k <=? 2 then THETA_COLOR
              else if k <=? 5 then BEAMSPLITTER_COLOR
              else if k <=? 8 then PHI_COLOR
              else BEAMSPLITTER_COLOR) as Hunit.
  { intros u k Hu Hk. unfold _mzi_poly_idx_to_layer_color.
    destruct (Z.ltb_spec (4 + 10 * u + k) 3); [lia|].
    replace ((4 + 10 * u + k - 4) mod 10) with k; [done|].
    Z.div_mod_to_equations. lia. }
  split; [reflexivity|]. split.
  - intros i Hi. unfold _mzi_poly_idx_to_layer_color.
    destruct (Z.ltb_spec (i + 10) 3), (Z.ltb_spec i 3); try lia.
    replace ((i + 10 - 4) mod 10) with ((i - 4) mod 10); [done|].
    Z.div_mod_to_equations. lia.
  - intros u Hu.
    replace (4 + 10 * u) with (4 + 10 * u + 0) at 1 by lia.
    rewrite <- fmap_add_seqZ.
    change (seqZ 0 10) with [0; 1; 2; 3; 4; 5; 6; 7; 8; 9].
    cbn [fmap list_fmap].
    rewrite !Hunit by lia. reflexivity.
Qed.

End LayerColor.

Lemma X9_layer_color_pattern_witness :
  @_mzi_poly_idx_to_layer_color toy 9 (6 + 10)
  = @_mzi_poly_idx_to_layer_color toy 9 6
  /\ @_mzi_poly_idx_to_layer_color toy 9 <$> seqZ (4 + 10 * 2) 10
     = [9; 9; 2; 9; 9; 9; 3; 3; 3; 9].
Proof.
  destruct (@X9_layer_color_pattern toy 9) as (_ & Hperiod & Hunit).
  split; [apply Hperiod; lia|apply Hunit; lia].
Defined.
